(** * Goof3: semantic checks, analyzer and JavaScript generator

    A shallow embedding of [src/semantics/check.js],
    [src/semantics/analyzer.js] and [src/codegen/javascript-generator.js].
    Every JavaScript function of those files is a function of the monad [M]
    below, which threads the object store and the closure state of
    [javaScriptId] and carries JavaScript exceptions. *)

From Stdlib Require Import ZArith Ascii String.
From stdpp Require Import base option list gmap strings pretty countable.

Open Scope string_scope.
Open Scope Z_scope.

(** ** Classes and values *)

(** Modelled from the spec: the module [../ast] is absent.  Its classes are
    the node variants of the data model, told apart by name; they declare
    no method of their own and do not extend one another.  [HostClass] is
    a constructor of the host language, by name. *)
Inductive cls :=
  | ArrayExpression | ArrayType | AssignmentStatement | BinaryExpression
  | CallExpression | Field | ForStatement | Func | GifStatement | IdExp
  | Literal | MemberExpression | Method | ObjectExp | Parameter_
  | PrimitiveType | RecordType | ReturnStatement | ThrowStatement
  | VariableDeclaration | WhileStatement
  | HostClass (name : string).

(** Modelled from the spec: the module [./builtins] is absent.  Its five
    exports are the primitive types of the data model, five distinct
    objects, none of them an instance of [RecordType]. *)
Inductive builtin := IntType | FloatType | StringType | NullType | BoolType.

(** A JavaScript value.  Objects live in the store and are denoted by their
    address, so that [===] on objects is identity. *)
Inductive val :=
  | VUndefined
  | VNull
  | VBool (b : bool)
  | VNum (n : Z)
  | VStr (s : string)
  | VRef (l : nat)
  | VClass (c : cls)
  | VBuiltin (b : builtin).

Global Instance cls_eq_dec : EqDecision cls.
Proof. solve_decision. Defined.
Global Instance builtin_eq_dec : EqDecision builtin.
Proof. solve_decision. Defined.
Global Instance val_eq_dec : EqDecision val.
Proof. solve_decision. Defined.

Definition cls_code (c : cls) : nat + string :=
  match c with
  | ArrayExpression => inl 0%nat | ArrayType => inl 1%nat
  | AssignmentStatement => inl 2%nat | BinaryExpression => inl 3%nat
  | CallExpression => inl 4%nat | Field => inl 5%nat
  | ForStatement => inl 6%nat | Func => inl 7%nat
  | GifStatement => inl 8%nat | IdExp => inl 9%nat
  | Literal => inl 10%nat | MemberExpression => inl 11%nat
  | Method => inl 12%nat | ObjectExp => inl 13%nat
  | Parameter_ => inl 14%nat | PrimitiveType => inl 15%nat
  | RecordType => inl 16%nat | ReturnStatement => inl 17%nat
  | ThrowStatement => inl 18%nat | VariableDeclaration => inl 19%nat
  | WhileStatement => inl 20%nat
  | HostClass s => inr s
  end.

Definition cls_decode (x : nat + string) : option cls :=
  match x with
  | inr s => Some (HostClass s)
  | inl n =>
      [ArrayExpression; ArrayType; AssignmentStatement; BinaryExpression;
       CallExpression; Field; ForStatement; Func; GifStatement; IdExp;
       Literal; MemberExpression; Method; ObjectExp; Parameter_;
       PrimitiveType; RecordType; ReturnStatement; ThrowStatement;
       VariableDeclaration; WhileStatement] !! n
  end.

Global Instance cls_countable : Countable cls.
Proof.
  apply (inj_countable cls_code cls_decode). by intros [].
Defined.

Definition builtin_code (b : builtin) : nat :=
  match b with
  | IntType => 0 | FloatType => 1 | StringType => 2 | NullType => 3
  | BoolType => 4
  end%nat.

Global Instance builtin_countable : Countable builtin.
Proof.
  apply (inj_countable builtin_code
           (λ n, [IntType; FloatType; StringType; NullType; BoolType] !! n)).
  by intros [].
Defined.

Definition val_code (v : val) : bool + (bool + Z) + (string + nat) + (cls + builtin) :=
  match v with
  | VUndefined => inl (inl (inl true))
  | VNull => inl (inl (inl false))
  | VBool b => inl (inl (inr (inl b)))
  | VNum n => inl (inl (inr (inr n)))
  | VStr s => inl (inr (inl s))
  | VRef l => inl (inr (inr l))
  | VClass c => inr (inl c)
  | VBuiltin b => inr (inr b)
  end.

Definition val_decode (x : bool + (bool + Z) + (string + nat) + (cls + builtin)) : val :=
  match x with
  | inl (inl (inl true)) => VUndefined
  | inl (inl (inl false)) => VNull
  | inl (inl (inr (inl b))) => VBool b
  | inl (inl (inr (inr n))) => VNum n
  | inl (inr (inl s)) => VStr s
  | inl (inr (inr l)) => VRef l
  | inr (inl c) => VClass c
  | inr (inr b) => VBuiltin b
  end.

Global Instance val_countable : Countable val.
Proof.
  apply (inj_countable' val_code val_decode). by intros [].
Defined.

(** ** The object store *)

Inductive scope_kind := GlobalScope | LoopScope | FunctionScope | ObjectScope.

(** An object of the store: an instance of a class with its own
    properties, an array, a [Context] (see [Context] below) or a [Set]. *)
Inductive obj :=
  | ONode (c : cls) (props : gmap string val)
  | OArray (elems : list val)
  | OContext (parent : val) (kind : scope_kind) (owner : val)
             (valueMap : gmap val val)
  | OSet (members : list val).

(** The state of one run: the store, and the two variables [lastId] and
    [map] closed over by [javaScriptId].  [lastId] counts far below 2^53,
    where the arithmetic of JavaScript numbers is exact. *)
Record state := State {
  heap : list obj;
  lastId : Z;
  map : gmap val Z;
}.

Definition init_state : state := State [] 0 ∅.

(** ** Exceptions and the monad *)

Inductive exn :=
  | Error (message : string)
  | TypeError (message : string)
  | ReferenceError (message : string).

Inductive outcome (A : Type) :=
  | Ok (a : A)
  | Throw (e : exn)
  | OutOfFuel.
Global Arguments Ok {A} a.
Global Arguments Throw {A} e.
Global Arguments OutOfFuel {A}.

Definition M (A : Type) : Type := state → outcome A * state.

Definition ret {A} (a : A) : M A := λ σ, (Ok a, σ).
Definition throw {A} (e : exn) : M A := λ σ, (Throw e, σ).
Definition out_of_fuel {A} : M A := λ σ, (OutOfFuel, σ).
Definition bind {A B} (m : M A) (k : A → M B) : M B := λ σ,
  match m σ with
  | (Ok a, σ') => k a σ'
  | (Throw e, σ') => (Throw e, σ')
  | (OutOfFuel, σ') => (OutOfFuel, σ')
  end.

Global Instance M_ret : MRet M := @ret.
Global Instance M_bind : MBind M := λ A B k m, bind m k.

Definition get_state : M state := λ σ, (Ok σ, σ).
Definition put_state (σ' : state) : M unit := λ _, (Ok (), σ').

Definition is_ok {A} (r : outcome A * state) : Prop :=
  match r.1 with Ok _ => True | _ => False end.

(** ** What the three files take from their environment

    [class_text c] is the source text of class [c], which is what a class
    becomes inside a template literal; [util_format] is [util.format] of
    Node.js, on one argument and the store it inspects; [format] is the
    function exported by [prettier-eslint], applied to the text it is
    given. *)
Class Host := {
  class_text : cls → string;
  util_format : list obj → val → string;
  format : string → exn + string;
}.

(** ** Primitive operations on values *)

Definition dquote : string := String (Ascii.ascii_of_nat 34) EmptyString.
Definition newline : string := String (Ascii.ascii_of_nat 10) EmptyString.

(** [!!v] *)
Definition truthy (v : val) : bool :=
  match v with
  | VUndefined | VNull => false
  | VBool b => b
  | VNum n => negb (n =? 0)
  | VStr s => negb (bool_decide (s = EmptyString))
  | VRef _ | VClass _ | VBuiltin _ => true
  end.

(** [v === w]: identity on objects, equality on primitives. *)
Definition strict_eq (v w : val) : bool := bool_decide (v = w).

Definition obj_at (h : list obj) (l : nat) : obj :=
  default (ONode (HostClass "Object") ∅) (h !! l).

Fixpoint join_strings (sep : string) (l : list string) : string :=
  match l with
  | [] => EmptyString
  | [s] => s
  | s :: l' => s +:+ sep +:+ join_strings sep l'
  end.

(** [String(v)], the conversion done by template literals, by [join] and
    by [RegExp.prototype.test].  An array is the comma-joined conversion of
    its elements, [undefined] and [null] elements giving the empty string;
    the nesting of arrays is followed to depth [d]. *)
Fixpoint ToString_depth `{Host} (d : nat) (h : list obj) (v : val) : string :=
  match v with
  | VUndefined => "undefined"
  | VNull => "null"
  | VBool true => "true"
  | VBool false => "false"
  | VNum n => pretty n
  | VStr s => s
  | VClass c => class_text c
  | VBuiltin _ => "[object Object]"
  | VRef l =>
      match obj_at h l with
      | OArray elems =>
          match d with
          | O => EmptyString
          | S d' =>
              join_strings ","
                ((λ e, match e with
                       | VUndefined | VNull => EmptyString
                       | _ => ToString_depth d' h e
                       end) <$> elems)
          end
      | OSet _ => "[object Set]"
      | ONode _ _ | OContext _ _ _ _ => "[object Object]"
      end
  end.

Definition ToString `{Host} (h : list obj) (v : val) : string :=
  ToString_depth (length h) h v.

(** The element conversion of [Array.prototype.join]. *)
Definition join_elem `{Host} (h : list obj) (v : val) : string :=
  match v with
  | VUndefined | VNull => EmptyString
  | _ => ToString h v
  end.

Definition describe (v : val) : string :=
  match v with VNull => "null" | _ => "undefined" end.

(** [v.p], reading an own property or, for [constructor], the class.  No
    object of the run has accessor properties, so a read changes nothing.
    The builtin types are taken to be instances of [PrimitiveType]. *)
Definition get (v : val) (p : string) : M val := λ σ,
  match v with
  | VUndefined | VNull =>
      (Throw (TypeError ("Cannot read property '" +:+ p +:+ "' of " +:+ describe v)), σ)
  | VBool _ =>
      (Ok (if bool_decide (p = "constructor") then VClass (HostClass "Boolean")
           else VUndefined), σ)
  | VNum _ =>
      (Ok (if bool_decide (p = "constructor") then VClass (HostClass "Number")
           else VUndefined), σ)
  | VStr s =>
      (Ok (if bool_decide (p = "constructor") then VClass (HostClass "String")
           else if bool_decide (p = "length") then VNum (Z.of_nat (String.length s))
           else VUndefined), σ)
  | VClass _ =>
      (Ok (if bool_decide (p = "constructor") then VClass (HostClass "Function")
           else VUndefined), σ)
  | VBuiltin _ =>
      (Ok (if bool_decide (p = "constructor") then VClass PrimitiveType
           else VUndefined), σ)
  | VRef l =>
      match obj_at (heap σ) l with
      | ONode c props =>
          (Ok (match props !! p with
               | Some x => x
               | None => if bool_decide (p = "constructor") then VClass c
                         else VUndefined
               end), σ)
      | OArray elems =>
          (Ok (if bool_decide (p = "constructor") then VClass (HostClass "Array")
               else if bool_decide (p = "length") then VNum (Z.of_nat (length elems))
               else VUndefined), σ)
      | OContext _ _ _ _ =>
          (Ok (if bool_decide (p = "constructor") then VClass (HostClass "Context")
               else VUndefined), σ)
      | OSet members =>
          (Ok (if bool_decide (p = "constructor") then VClass (HostClass "Set")
               else if bool_decide (p = "size") then VNum (Z.of_nat (length members))
               else VUndefined), σ)
      end
  end.

(** [v[i]] for an index [i]. *)
Definition get_index (v : val) (i : nat) : M val := λ σ,
  match v with
  | VRef l =>
      match obj_at (heap σ) l with
      | OArray elems => (Ok (default VUndefined (elems !! i)), σ)
      | ONode _ props => (Ok (default VUndefined (props !! pretty i)), σ)
      | _ => (Ok VUndefined, σ)
      end
  | VStr s =>
      (Ok (match String.get i s with
           | Some a => VStr (String a EmptyString)
           | None => VUndefined
           end), σ)
  | VUndefined | VNull =>
      (Throw (TypeError ("Cannot read property '" +:+ pretty i +:+ "' of " +:+ describe v)), σ)
  | _ => (Ok VUndefined, σ)
  end.

(** [v.p = x].  The three files assign only to properties of [this], an
    instance of a class of [../ast]. *)
Definition set (v : val) (p : string) (x : val) : M unit := λ σ,
  match v with
  | VUndefined | VNull =>
      (Throw (TypeError ("Cannot set property '" +:+ p +:+ "' of " +:+ describe v)), σ)
  | VRef l =>
      match obj_at (heap σ) l with
      | ONode c props =>
          (Ok (), State (<[l := ONode c (<[p := x]> props)]> (heap σ)) (lastId σ) (map σ))
      | _ => (Ok (), σ)
      end
  | _ => (Ok (), σ)
  end.

(** [new C(...)], storing a fresh object. *)
Definition alloc (o : obj) : M val := λ σ,
  (Ok (VRef (length (heap σ))), State (heap σ ++ [o]) (lastId σ) (map σ)).

(** [v instanceof c]; the classes of [../ast] do not extend one another. *)
Definition instanceof (v : val) (c : cls) : M bool := λ σ,
  match v with
  | VRef l =>
      match obj_at (heap σ) l with
      | ONode c' _ => (Ok (bool_decide (c' = c)), σ)
      | _ => (Ok false, σ)
      end
  | _ => (Ok false, σ)
  end.

Definition not_a_function {A} (what : string) : M A :=
  throw (TypeError (what +:+ " is not a function")).

(** The elements of [v] when [v.method] is a method of arrays. *)
Definition array_elems (method : string) (v : val) : M (list val) := λ σ,
  match v with
  | VUndefined | VNull =>
      (Throw (TypeError ("Cannot read property '" +:+ method +:+ "' of " +:+ describe v)), σ)
  | VRef l =>
      match obj_at (heap σ) l with
      | OArray elems => (Ok elems, σ)
      | _ => (Throw (TypeError (method +:+ " is not a function")), σ)
      end
  | _ => (Throw (TypeError (method +:+ " is not a function")), σ)
  end.

(** [f] on each element in turn, with its index, as [forEach] and [map] do. *)
Fixpoint each_from {A} (i : nat) (f : val → nat → M A) (l : list val) : M (list A) :=
  match l with
  | [] => mret []
  | x :: l' => y ← f x i; ys ← each_from (S i) f l'; mret (y :: ys)
  end.

Definition forEach {A} (v : val) (f : val → nat → M A) : M unit :=
  elems ← array_elems "forEach" v; each_from 0 f elems;; mret ().

Definition map_array {A} (v : val) (f : val → M A) : M (list A) :=
  elems ← array_elems "map" v; each_from 0 (λ x _, f x) elems.

(** [l.join(sep)] for the array [l] that a [map] has just built. *)
Definition join `{Host} (l : list val) (sep : string) : M string :=
  σ ← get_state; mret (join_strings sep (join_elem (heap σ) <$> l)).

(** [`${v}`] *)
Definition str `{Host} (v : val) : M string :=
  σ ← get_state; mret (ToString (heap σ) v).

(** ** Regular expressions of the analyzer *)

Fixpoint has_char (p : ascii → bool) (s : string) : bool :=
  match s with
  | EmptyString => false
  | String a s' => p a || has_char p s'
  end.

Fixpoint has_substring (t s : string) : bool :=
  String.prefix t s ||
  match s with
  | EmptyString => false
  | String _ s' => has_substring t s'
  end.

Definition one_of (cs : string) (a : ascii) : bool :=
  has_char (λ b, bool_decide (a = b)) cs.

(** [/[-+*/]/.test(s)] *)
Definition re_arith (s : string) : bool := has_char (one_of "-+*/") s.
(** [/[<>]/.test(s)] *)
Definition re_rel (s : string) : bool := has_char (one_of "<>") s.
(** [/\|\||&&/.test(s)] *)
Definition re_logic (s : string) : bool :=
  has_substring "||" s || has_substring "&&" s.
(** [/^[!=]/.test(s)] *)
Definition re_eq (s : string) : bool :=
  match s with
  | EmptyString => false
  | String a _ => one_of "!=" a
  end.

(** ** src/semantics/check.js *)

(** [new Error(message).message]: the empty string when no message is given. *)
Definition error_message (message : option string) : string :=
  match message with
  | Some m => m
  | None => EmptyString
  end.

Definition doCheck (condition : bool) (message : option string) : M unit :=
  if negb condition then throw (Error (error_message message)) else mret ().

Definition isArray (expression : val) : M unit :=
  t ← get expression "type";
  doCheck (strict_eq t (VClass ArrayType)) None.

Definition isArrayType (type : val) : M unit :=
  t ← get type "type";
  doCheck (strict_eq t (VClass ArrayType)) (Some "Not an array type").

Definition isInteger (expression : val) : M unit :=
  t ← get expression "type";
  doCheck (strict_eq t (VBuiltin IntType)) (Some "Not an integer").

Definition isNumber (expression : val) : M unit :=
  t ← get expression "type";
  doCheck (strict_eq t (VBuiltin IntType) || strict_eq t (VBuiltin FloatType))
    (Some "Not a number").

Definition isString (expression : val) : M unit :=
  t ← get expression "type";
  doCheck (strict_eq t (VBuiltin StringType)) (Some "Not a string").

Definition isIntegerOrString (expression : val) : M unit :=
  t ← get expression "type";
  doCheck (strict_eq t (VBuiltin IntType) || strict_eq t (VBuiltin StringType))
    (Some "Not an integer or string").

Definition isFunction (value : val) : M unit :=
  c ← get value "constructor";
  doCheck (strict_eq c (VClass Func)) (Some "Not a function").

Definition expressionsHaveTheSameType (e1 e2 : val) : M unit :=
  t1 ← get e1 "type";
  t2 ← get e2 "type";
  doCheck (strict_eq t1 t2) (Some "Types must match exactly").

(** The condition is evaluated first, [type.constructor] only when the
    expression has type [NullType]; then the message, whatever the
    condition. *)
Definition isAssignableTo `{Host} (expression type : val) : M unit :=
  t ← get expression "type";
  null_to_record ←
    (if strict_eq t (VBuiltin NullType)
     then c ← get type "constructor"; mret (strict_eq c (VClass RecordType))
     else mret false);
  σ ← get_state;
  doCheck (null_to_record || strict_eq t type)
    (Some ("Expression of type " +:+ util_format (heap σ) t +:+
           " not compatible with type " +:+ util_format (heap σ) type)).

Definition isNotReadOnly (lvalue : val) : M unit :=
  c ← get lvalue "constructor";
  read_only ←
    (if strict_eq c (VClass IdExp)
     then r ← get lvalue "ref"; ro ← get r "readOnly"; mret (truthy ro)
     else mret false);
  doCheck (negb read_only) (Some "Assignment to read-only variable").

(** [usedFields.has(field)], for a [Set]. *)
Definition set_has (usedFields field : val) : M bool := λ σ,
  match usedFields with
  | VUndefined | VNull =>
      (Throw (TypeError ("Cannot read property 'has' of " +:+ describe usedFields)), σ)
  | VRef l =>
      match obj_at (heap σ) l with
      | OSet members => (Ok (bool_decide (field ∈ members)), σ)
      | _ => (Throw (TypeError "usedFields.has is not a function"), σ)
      end
  | _ => (Throw (TypeError "usedFields.has is not a function"), σ)
  end.

Definition fieldHasNotBeenUsed `{Host} (field usedFields : val) : M unit :=
  used ← set_has usedFields field;
  f ← str field;
  doCheck (negb used) (Some ("Field " +:+ f +:+ " already declared")).

Definition legalArguments `{Host} (args params : val) : M unit :=
  na ← get args "length";
  np ← get params "length";
  sp ← str np;
  sa ← str na;
  doCheck (strict_eq na np)
    (Some ("Expected " +:+ sp +:+ " args in call, got " +:+ sa));;
  forEach args (λ arg i, p ← get_index params i; t ← get p "type";
                         isAssignableTo arg t).

Definition noRecursiveTypeCyclesWithoutRecordTypes : M unit := mret ().

Definition arg (args : list val) (i : nat) : val := default VUndefined (args !! i).

(** [module.exports] of check.js: its members, by name, each applied to
    the list of its actual arguments. *)
Definition check_exports `{Host} : list (string * (list val → M unit)) :=
  [ ("isArray", λ a, isArray (arg a 0));
    ("isArrayType", λ a, isArrayType (arg a 0));
    ("isInteger", λ a, isInteger (arg a 0));
    ("isNumber", λ a, isNumber (arg a 0));
    ("isString", λ a, isString (arg a 0));
    ("isIntegerOrString", λ a, isIntegerOrString (arg a 0));
    ("isFunction", λ a, isFunction (arg a 0));
    ("expressionsHaveTheSameType", λ a, expressionsHaveTheSameType (arg a 0) (arg a 1));
    ("isAssignableTo", λ a, isAssignableTo (arg a 0) (arg a 1));
    ("isNotReadOnly", λ a, isNotReadOnly (arg a 0));
    ("fieldHasNotBeenUsed", λ a, fieldHasNotBeenUsed (arg a 0) (arg a 1));
    ("legalArguments", λ a, legalArguments (arg a 0) (arg a 1));
    ("noRecursiveTypeCyclesWithoutRecordTypes",
      λ _, noRecursiveTypeCyclesWithoutRecordTypes) ].

Fixpoint assoc {A} (k : string) (l : list (string * A)) : option A :=
  match l with
  | [] => None
  | (k', x) :: l' => if bool_decide (k = k') then Some x else assoc k l'
  end.

(** [check.name(args)] as the analyzer writes it: a name that
    [module.exports] lacks is [undefined], and calling it is a TypeError. *)
Definition check `{Host} (name : string) (args : list val) : M unit :=
  match assoc name check_exports with
  | Some f => f args
  | None => not_a_function ("check." +:+ name)
  end.

(** ** The symbol table *)

(** Modelled from the spec: the module [./context] is absent.  A context
    maps declared names to their declaring nodes and is linked to its
    enclosing context.  [add] binds the [id] of a node in the current scope
    and fails when that scope already binds it; [lookupValue] searches the
    current scope, then the enclosing ones, and fails when they are
    exhausted; the three [createChildContextFor...] return a new scope
    linked to the current one and tagged with its kind.  The parameters of
    a function are bound in the scope of its body by the analyzer, which
    runs [Parameter.prototype.analyze] on each of them there. *)
Module Context.

Definition receiver (method : string) (context : val)
    : M (nat * (val * scope_kind * val * gmap val val)) := λ σ,
    match context with
    | VUndefined | VNull =>
        (Throw (TypeError ("Cannot read property '" +:+ method +:+ "' of " +:+ describe context)), σ)
    | VRef l =>
        match obj_at (heap σ) l with
        | OContext parent kind owner valueMap =>
            (Ok (l, (parent, kind, owner, valueMap)), σ)
        | _ => (Throw (TypeError ("context." +:+ method +:+ " is not a function")), σ)
        end
    | _ => (Throw (TypeError ("context." +:+ method +:+ " is not a function")), σ)
    end.

Definition add `{Host} (context decl : val) : M unit :=
    '(l, (parent, kind, owner, valueMap)) ← receiver "add" context;
    name ← get decl "id";
    n ← str name;
    match valueMap !! name with
    | Some _ => throw (Error ("Identifier already declared in this scope: " +:+ n))
    | None =>
        σ ← get_state;
        put_state (State (<[l := OContext parent kind owner (<[name := decl]> valueMap)]> (heap σ))
                     (lastId σ) (map σ))
    end.

  (** The walk through at most [n] enclosing scopes. *)
Fixpoint lookup_chain (n : nat) (h : list obj) (context name : val) : option val :=
    match n with
    | O => None
    | S n' =>
        match context with
        | VRef l =>
            match obj_at h l with
            | OContext parent _ _ valueMap =>
                match valueMap !! name with
                | Some d => Some d
                | None => lookup_chain n' h parent name
                end
            | _ => None
            end
        | _ => None
        end
    end.

Definition lookupValue `{Host} (context name : val) : M val :=
    _ ← receiver "lookupValue" context;
    σ ← get_state;
    n ← str name;
    match lookup_chain (length (heap σ)) (heap σ) context name with
    | Some d => mret d
    | None => throw (Error ("Identifier has not been declared: " +:+ n))
    end.

Definition createChild (method : string) (kind : scope_kind)
      (context owner : val) : M val :=
    _ ← receiver method context;
    alloc (OContext context kind owner ∅).

Definition createChildContextForLoop (context : val) : M val :=
    createChild "createChildContextForLoop" LoopScope context VUndefined.

Definition createChildContextForFunctionBody (context owner : val) : M val :=
    createChild "createChildContextForFunctionBody" FunctionScope context owner.

Definition createChildContextForObject (context : val) : M val :=
    createChild "createChildContextForObject" ObjectScope context VUndefined.

  (** A context with no enclosing one. *)
Definition global : obj := OContext VNull GlobalScope VUndefined ∅.

End Context.

(** ** src/semantics/analyzer.js *)

Definition getType (typeString : val) : val :=
  if strict_eq typeString (VStr "array_of_chars") then VBuiltin StringType
  else if strict_eq typeString (VStr "whole_number") then VBuiltin IntType
  else if strict_eq typeString (VStr "not_whole_number") then VBuiltin FloatType
  else if strict_eq typeString (VStr "true_or_false") then VBuiltin BoolType
  else if strict_eq typeString (VStr "temp") then VBuiltin NullType
  else typeString.

(** Modelled from the spec: the constructor of [IdExp] is in the absent
    [../ast].  [IdExp.prototype.analyze] reads the name of an identifier
    from its [reference], where the constructor leaves its argument. *)
Definition new_IdExp (reference : val) : M val :=
  alloc (ONode IdExp {[ "reference" := reference ]}).

(** The methods that the file adds to the prototypes.  [analyze x context]
    stands for the call [x.analyze(context)]; a call written without
    argument passes [undefined]. *)
Section AnalyzerMethods.
Context `{Host}.
Variable analyze : val → val → M unit.

Definition ArrayExpression_analyze (this _ : val) : M unit :=
    t ← get this "type";
    analyze t VUndefined;;
    check "isArray" [this];;
    size ← get this "size";
    analyze size VUndefined;;
    size ← get this "size";
    check "isInteger" [size];;
    elements ← get this "elements";
    forEach elements (λ e _,
      analyze e VUndefined;;
      t ← get this "type";
      elem_type ← get t "type";
      check "isAssignableTo" [e; elem_type]).

Definition ArrayType_analyze (this _ : val) : M unit :=
    check "isArrayType" [this];;
    t ← get this "type";
    set this "type" (getType t).

Definition AssignmentStatement_analyze (this context : val) : M unit :=
    source ← get this "source";
    analyze source context;;
    target ← get this "target";
    analyze target context;;
    source ← get this "source";
    target ← get this "target";
    target_type ← get target "type";
    check "isAssignableTo" [source; target_type];;
    target ← get this "target";
    check "isNotReadOnly" [target].

Definition BinaryExpression_analyze (this context : val) : M unit :=
    left ← get this "left";
    analyze left context;;
    right ← get this "right";
    analyze right context;;
    op ← get this "op";
    op ← str op;
    if re_arith op then
      left ← get this "left";
      check "isNumber" [left];;
      right ← get this "right";
      check "isNumber" [right];;
      left ← get this "left";
      lt ← get left "type";
      float ←
        (if strict_eq lt (VBuiltin FloatType) then mret true
         else right ← get this "right";
              rt ← get right "type";
              mret (strict_eq rt (VBuiltin FloatType)));
      if float : bool then set this "type" (VBuiltin FloatType)
      else set this "type" (VBuiltin IntType)
    else if re_rel op then
      left ← get this "left";
      check "isNumber" [left];;
      right ← get this "right";
      check "isNumber" [right];;
      set this "type" (VBuiltin BoolType)
    else if re_logic op then
      left ← get this "left";
      check "isBoolean" [left];;
      right ← get this "right";
      check "isBoolean" [right];;
      set this "type" (VBuiltin BoolType)
    else if re_eq op then
      left ← get this "left";
      right ← get this "right";
      check "expressionsHaveTheSameType" [left; right];;
      set this "type" (VBuiltin BoolType)
    else mret ().

Definition CallExpression_analyze (this context : val) : M unit :=
    callee ← get this "callee";
    callee ← Context.lookupValue context callee;
    set this "callee" callee;;
    callee ← get this "callee";
    check "isFunction" [callee; VStr "Attempt to call a non-function"];;
    args ← get this "args";
    forEach args (λ a _, analyze a context);;
    args ← get this "args";
    callee ← get this "callee";
    parameters ← get callee "parameters";
    check "legalArguments" [args; parameters].

Definition Field_analyze (this context : val) : M unit :=
    t ← get this "type";
    set this "type" (getType t);;
    value ← get this "value";
    analyze value context;;
    value ← get this "value";
    t ← get this "type";
    check "isAssignableTo" [value; t];;
    Context.add context this.

Definition ForStatement_analyze (this context : val) : M unit :=
    loopContext ← Context.createChildContextForLoop context;
    assignments ← get this "assignments";
    forEach assignments (λ e _, analyze e loopContext);;
    test ← get this "test";
    analyze test loopContext;;
    test ← get this "test";
    check "isBoolean" [test];;
    action ← get this "action";
    analyze action loopContext;;
    action ← get this "action";
    check "isAssignment" [action];;
    body ← get this "body";
    forEach body (λ e _, analyze e loopContext).

Definition Func_analyzeSignature (this context : val) : M unit :=
    bodyContext ← Context.createChildContextForFunctionBody context this;
    set this "bodyContext" bodyContext;;
    parameters ← get this "parameters";
    (if truthy parameters then
       parameters ← get this "parameters";
       forEach parameters (λ p _,
         bodyContext ← get this "bodyContext";
         analyze p bodyContext)
     else mret ());;
    Context.add context this.

Definition Func_analyze (this context : val) : M unit :=
    Func_analyzeSignature this context;;
    body ← get this "body";
    if truthy body then
      body ← get this "body";
      forEach body (λ e _,
        bodyContext ← get this "bodyContext";
        analyze e bodyContext)
    else mret ().

Definition GifStatement_analyze (this context : val) : M unit :=
    tests ← get this "tests";
    forEach tests (λ e _,
      analyze e context;;
      check "isBoolean" [e]);;
    consequents ← get this "consequents";
    forEach consequents (λ cons _,
      forEach cons (λ e _, analyze e context));;
    alternate ← get this "alternate";
    if truthy alternate then
      alternate ← get this "alternate";
      first ← get_index alternate 0;
      analyze first context
    else mret ().

Definition IdExp_analyze (this context : val) : M unit :=
    reference ← get this "reference";
    reference ← Context.lookupValue context reference;
    set this "reference" reference;;
    reference ← get this "reference";
    t ← get reference "type";
    set this "type" t.

Definition Literal_analyze (this _ : val) : M unit :=
    t ← get this "type";
    set this "type" (getType t).

Definition MemberExpression_analyze (this context : val) : M unit :=
    object ← get this "object";
    analyze object context;;
    object ← get this "object";
    reference ← get object "reference";
    t ← get reference "type";
    is_array ← instanceof t ArrayType;
    (if is_array : bool then
       property ← get this "property";
       analyze property context;;
       property ← get this "property";
       check "isInteger" [property]
     else
       object ← get this "object";
       reference ← get object "reference";
       t ← get reference "type";
       if strict_eq t (VStr "object") then
         property ← get this "property";
         property ← new_IdExp property;
         set this "property" property;;
         property ← get this "property";
         object ← get this "object";
         reference ← get object "reference";
         initializer ← get reference "initializer";
         ObjContext ← get initializer "ObjContext";
         analyze property ObjContext
       else throw (Error "Non subscriptable expression"));;
    property ← get this "property";
    t ← get property "type";
    set this "type" t.

Definition Method_analyzeSignature (this context : val) : M unit :=
    bodyContext ← Context.createChildContextForFunctionBody context this;
    set this "bodyContext" bodyContext;;
    parameters ← get this "parameters";
    forEach parameters (λ p _,
      bodyContext ← get this "bodyContext";
      analyze p bodyContext);;
    Context.add context this.

Definition Method_analyze (this context : val) : M unit :=
    Method_analyzeSignature this context;;
    body ← get this "body";
    if truthy body then
      body ← get this "body";
      forEach body (λ e _,
        bodyContext ← get this "bodyContext";
        analyze e bodyContext)
    else mret ().

Definition ObjectExp_analyze (this context : val) : M unit :=
    ObjContext ← Context.createChildContextForObject context;
    set this "ObjContext" ObjContext;;
    properties ← get this "properties";
    forEach properties (λ p _,
      ObjContext ← get this "ObjContext";
      analyze p ObjContext).

Definition Parameter_analyze (this context : val) : M unit :=
    t ← get this "type";
    set this "type" (getType t);;
    Context.add context this.

Definition ReturnStatement_analyze (this context : val) : M unit :=
    returnValue ← get this "returnValue";
    analyze returnValue context.

Definition ThrowStatement_analyze (this _ : val) : M unit :=
    error ← get this "error";
    analyze error VUndefined;;
    error ← get this "error";
    check "isString" [error].

Definition VariableDeclaration_analyze (this context : val) : M unit :=
    t ← get this "type";
    is_array ← instanceof t ArrayType;
    (if is_array : bool then
       t ← get this "type";
       analyze t VUndefined
     else
       t ← get this "type";
       set this "type" (getType t));;
    initializer ← get this "initializer";
    (if truthy initializer then
       initializer ← get this "initializer";
       analyze initializer context;;
       initializer ← get this "initializer";
       t ← get this "type";
       check "isAssignableTo" [initializer; t]
     else mret ());;
    Context.add context this.

Definition WhileStatement_analyze (this context : val) : M unit :=
    loopContext ← Context.createChildContextForLoop context;
    test ← get this "test";
    analyze test loopContext;;
    test ← get this "test";
    check "isBoolean" [test];;
    body ← get this "body";
    forEach body (λ e _, analyze e loopContext).

  (** The [analyze] found on the prototype of each class. *)
Definition analyze_method (c : cls) : option (val → val → M unit) :=
    match c with
    | ArrayExpression => Some ArrayExpression_analyze
    | ArrayType => Some ArrayType_analyze
    | AssignmentStatement => Some AssignmentStatement_analyze
    | BinaryExpression => Some BinaryExpression_analyze
    | CallExpression => Some CallExpression_analyze
    | Field => Some Field_analyze
    | ForStatement => Some ForStatement_analyze
    | Func => Some Func_analyze
    | GifStatement => Some GifStatement_analyze
    | IdExp => Some IdExp_analyze
    | Literal => Some Literal_analyze
    | MemberExpression => Some MemberExpression_analyze
    | Method => Some Method_analyze
    | ObjectExp => Some ObjectExp_analyze
    | Parameter_ => Some Parameter_analyze
    | ReturnStatement => Some ReturnStatement_analyze
    | ThrowStatement => Some ThrowStatement_analyze
    | VariableDeclaration => Some VariableDeclaration_analyze
    | WhileStatement => Some WhileStatement_analyze
    | PrimitiveType | RecordType | HostClass _ => None
    end.

  (** The method [name] of [x], looked up in the table [methods] of the
      prototypes; [x.name] is a TypeError on [undefined] and [null], and
      calling it is one when no prototype of [x] has that method. *)
Definition method_of {A} (name : string) (methods : cls → option A)
      (x : val) : M A := λ σ,
    match x with
    | VUndefined | VNull =>
        (Throw (TypeError ("Cannot read property '" +:+ name +:+ "' of " +:+ describe x)), σ)
    | VRef l =>
        match obj_at (heap σ) l with
        | ONode c _ =>
            match methods c with
            | Some m => (Ok m, σ)
            | None => (Throw (TypeError (name +:+ " is not a function")), σ)
            end
        | _ => (Throw (TypeError (name +:+ " is not a function")), σ)
        end
    | _ => (Throw (TypeError (name +:+ " is not a function")), σ)
    end.

Definition call_analyze (x context : val) : M unit :=
    m ← method_of "analyze" analyze_method x;
    m x context.

End AnalyzerMethods.

(** [x.analyze(context)], the calls nested at most [fuel] deep. *)
Fixpoint analyze `{Host} (fuel : nat) (x context : val) : M unit :=
  match fuel with
  | O => out_of_fuel
  | S fuel' => call_analyze (analyze fuel') x context
  end.

(** ** src/codegen/javascript-generator.js *)

(** [{ '=': '===', '<>': '!==', '&': '&&', '|': '||' }[op] || op].  The
    operators of the language are not names of properties that the object
    literal inherits, which are left out. *)
Definition makeOp `{Host} (op : val) : M val :=
  key ← str op;
  mret (default op
          (VStr <$> assoc key [("=", "==="); ("<>", "!=="); ("&", "&&"); ("|", "||")])).

(** The closure keeps [lastId] and [map]; the entry of [v] is made before
    [v.id] is read. *)
Definition javaScriptId `{Host} (v : val) : M val :=
  σ ← get_state;
  (if bool_decide (is_Some (map σ !! v)) then mret ()
   else put_state (State (heap σ) (lastId σ + 1)
                     (<[v := lastId σ + 1]> (map σ))));;
  id ← get v "id";
  id ← str id;
  σ ← get_state;
  n ← str (default VUndefined (VNum <$> map σ !! v));
  mret (VStr (id +:+ "_" +:+ n)).

Definition generateLibraryStub `{Host} (name params body : val) : M val :=
  name ← javaScriptId name;
  name ← str name;
  params ← str params;
  body ← str body;
  mret (VStr ("function " +:+ name +:+ "(" +:+ params +:+ ") {" +:+ body +:+ "}")).

Definition generateLibraryFunctions `{Host} : M val :=
  stub ← generateLibraryStub (VStr "print") (VStr "s") (VStr "console.log(s);");
  s ← join [stub] EmptyString;
  mret (VStr s).

(** The identifier [test], which no scope of the file binds. *)
Definition free_test : M val := throw (ReferenceError "test is not defined").

Section GeneratorMethods.
Context `{Host}.
Variable gen : val → M val.

Definition ArrayExpression_gen (this : val) : M val :=
    size ← get this "size";
    size ← gen size;
    size ← str size;
    elements ← get this "elements";
    elements ← gen elements;
    elements ← str elements;
    mret (VStr ("Array(" +:+ size +:+ ").fill(" +:+ elements +:+ ")")).

Definition AssignmentStatement_gen (this : val) : M val :=
    target ← get this "target";
    target ← gen target;
    target ← str target;
    source ← get this "source";
    source ← gen source;
    source ← str source;
    mret (VStr (target +:+ " = " +:+ source)).

Definition BinaryExpression_gen (this : val) : M val :=
    left ← get this "left";
    left ← gen left;
    left ← str left;
    op ← get this "op";
    op ← makeOp op;
    op ← str op;
    right ← get this "right";
    right ← gen right;
    right ← str right;
    mret (VStr ("(" +:+ left +:+ " " +:+ op +:+ " " +:+ right +:+ ")")).

Definition CallExpression_gen (this : val) : M val :=
    args ← get this "args";
    args ← map_array args gen;
    callee ← get this "callee";
    callee ← javaScriptId callee;
    callee ← str callee;
    args ← join args ",";
    mret (VStr (callee +:+ "(" +:+ args +:+ ")")).

Definition Field_gen (this : val) : M val :=
    name ← javaScriptId this;
    name ← str name;
    value ← get this "value";
    value ← gen value;
    value ← str value;
    mret (VStr (name +:+ " : " +:+ value)).

Definition ForStatement_gen (this : val) : M val :=
    body ← get this "body";
    body ← map_array body gen;
    assignments ← get this "assignments";
    assignments ← gen assignments;
    assignments ← str assignments;
    test ← free_test;
    test ← gen test;
    test ← str test;
    action ← get this "action";
    action ← gen action;
    action ← str action;
    body ← join body ";";
    mret (VStr ("for (" +:+ assignments +:+ ", " +:+ test +:+ ", " +:+ action +:+
                ") {" +:+ body +:+ "}")).

Definition Func_gen (this : val) : M val :=
    name ← javaScriptId this;
    parameters ← get this "parameters";
    params ← map_array parameters javaScriptId;
    body ← get this "body";
    body ← map_array body gen;
    name ← str name;
    params ← join params ",";
    body ← join body ";";
    mret (VStr ("function " +:+ name +:+ " (" +:+ params +:+ ") {" +:+ body +:+ ";}")).

Definition GifStatement_gen (this : val) : M val :=
    thenPart ← get this "consequent";
    alternate ← get this "alternate";
    elsePart ←
      (if truthy alternate then alternate ← get this "alternate"; gen alternate
       else mret (VStr EmptyString));
    test ← free_test;
    test ← gen test;
    test ← str test;
    thenPart ← gen thenPart;
    thenPart ← str thenPart;
    elsePart ← gen elsePart;
    elsePart ← str elsePart;
    mret (VStr ("if (" +:+ test +:+ ") " +:+ thenPart +:+ " " +:+ elsePart)).

Definition IdExp_gen (this : val) : M val :=
    reference ← get this "reference";
    javaScriptId reference.

Definition Literal_gen (this : val) : M val :=
    t ← get this "type";
    if strict_eq t (VBuiltin StringType) then
      value ← get this "value";
      value ← str value;
      mret (VStr (dquote +:+ value +:+ dquote))
    else get this "value".

Definition MemberExpression_gen (this : val) : M val :=
    object ← get this "object";
    object ← gen object;
    object ← str object;
    name ← javaScriptId this;
    name ← str name;
    mret (VStr (object +:+ ".[" +:+ name +:+ "]")).

Definition Method_gen (this : val) : M val :=
    name ← javaScriptId this;
    params ← get this "params";
    params ← map_array params javaScriptId;
    body ← get this "body";
    body ← map_array body gen;
    body ← join body ";";
    body_array ← get this "body";
    body_type ← get body_array "type";
    let body := if truthy body_type then "return " +:+ body +:+ ";" else body in
    name ← str name;
    params ← join params ",";
    mret (VStr ("function " +:+ name +:+ " (" +:+ params +:+ ") {" +:+ body +:+ "}")).

Definition ObjectExp_gen (this : val) : M val :=
    properties ← get this "properties";
    properties ← map_array properties gen;
    properties ← join properties ",";
    mret (VStr properties).

Definition Parameter_gen (this : val) : M val :=
    javaScriptId this.

Definition ReturnStatement_gen (this : val) : M val :=
    returnValue ← get this "returnValue";
    returnValue ← gen returnValue;
    returnValue ← str returnValue;
    mret (VStr ("return " +:+ returnValue)).

Definition ThrowStatement_gen (this : val) : M val :=
    error ← get this "error";
    error ← str error;
    mret (VStr ("throw Error(" +:+ dquote +:+ error +:+ dquote +:+ ")")).

Definition VariableDeclaration_gen (this : val) : M val :=
    name ← javaScriptId this;
    name ← str name;
    initializer ← get this "initializer";
    initializer ← gen initializer;
    initializer ← str initializer;
    mret (VStr ("let " +:+ name +:+ " = " +:+ initializer)).

Definition WhileStatement_gen (this : val) : M val :=
    body ← get this "body";
    body ← map_array body gen;
    test ← get this "test";
    test ← gen test;
    test ← str test;
    body ← join body ";";
    mret (VStr ("while (" +:+ test +:+ ") { " +:+ body +:+ "))" +:+ newline +:+
                "        .join(';')} }")).

  (** The [gen] found on the prototype of each class. *)
Definition gen_method (c : cls) : option (val → M val) :=
    match c with
    | ArrayExpression => Some ArrayExpression_gen
    | AssignmentStatement => Some AssignmentStatement_gen
    | BinaryExpression => Some BinaryExpression_gen
    | CallExpression => Some CallExpression_gen
    | Field => Some Field_gen
    | ForStatement => Some ForStatement_gen
    | Func => Some Func_gen
    | GifStatement => Some GifStatement_gen
    | IdExp => Some IdExp_gen
    | Literal => Some Literal_gen
    | MemberExpression => Some MemberExpression_gen
    | Method => Some Method_gen
    | ObjectExp => Some ObjectExp_gen
    | Parameter_ => Some Parameter_gen
    | ReturnStatement => Some ReturnStatement_gen
    | ThrowStatement => Some ThrowStatement_gen
    | VariableDeclaration => Some VariableDeclaration_gen
    | WhileStatement => Some WhileStatement_gen
    | ArrayType | PrimitiveType | RecordType | HostClass _ => None
    end.

Definition call_gen (x : val) : M val :=
    m ← method_of "gen" gen_method x;
    m x.

End GeneratorMethods.

(** [x.gen()], the calls nested at most [fuel] deep. *)
Fixpoint gen `{Host} (fuel : nat) (x : val) : M val :=
  match fuel with
  | O => out_of_fuel
  | S fuel' => call_gen (gen fuel') x
  end.

(** [module.exports]: the text of [exp.gen()], handed to the formatter. *)
Definition generate `{Host} (fuel : nat) (exp : val) : M val :=
  code ← gen fuel exp;
  sourceCode ← str code;
  match format sourceCode with
  | inl e => throw e
  | inr program => mret (VStr program)
  end.

(** ** Programs and notions used in the statements *)

(** The value of [v.p] in state [σ], when reading it does not raise. *)
Definition prop (σ : state) (v : val) (p : string) : option val :=
  match (get v p σ).1 with
  | Ok x => Some x
  | _ => None
  end.

(** The class of which [v] is an instance. *)
Definition instance_of (σ : state) (v : val) : option cls :=
  match v with
  | VRef l =>
      match heap σ !! l with
      | Some (ONode c _) => Some c
      | _ => None
      end
  | _ => None
  end.

(** A host whose formatter returns its text unchanged. *)
Definition plain_host : Host := {|
  class_text c := "class";
  util_format _ v :=
    match v with
    | VStr s => s
    | VBuiltin IntType => "IntType"
    | VBuiltin FloatType => "FloatType"
    | VBuiltin StringType => "StringType"
    | VBuiltin NullType => "NullType"
    | VBuiltin BoolType => "BoolType"
    | _ => "[Object]"
    end;
  format s := inr s;
|}.

(** A store before any name has been generated. *)
Definition store (h : list obj) : state := State h 0 ∅.

(** A literal as the parser leaves it, its kind in [type]. *)
Definition literal (kind value : string) : obj :=
  ONode Literal {[ "type" := VStr kind; "value" := VStr value ]}.

(** [while true { }], at address 3; the global context is at 0. *)
Definition while_true : list obj :=
  [ Context.global;
    literal "true_or_false" "true";
    OArray [];
    ONode WhileStatement {[ "test" := VRef 1; "body" := VRef 2 ]} ].

(** [for (var i : whole_number := 0; true; i := 1) { }], at address 9. *)
Definition for_true : list obj :=
  [ Context.global;
    literal "whole_number" "0";
    ONode VariableDeclaration
      {[ "id" := VStr "i"; "type" := VStr "whole_number"; "initializer" := VRef 1 ]};
    OArray [VRef 2];
    literal "true_or_false" "true";
    ONode IdExp {[ "reference" := VStr "i" ]};
    literal "whole_number" "1";
    ONode AssignmentStatement {[ "target" := VRef 5; "source" := VRef 6 ]};
    OArray [];
    ONode ForStatement
      {[ "assignments" := VRef 3; "test" := VRef 4; "action" := VRef 7;
         "body" := VRef 8 ]} ].

(** [if true then { }] with no alternate, at address 5. *)
Definition gif_true : list obj :=
  [ Context.global;
    literal "true_or_false" "true";
    OArray [VRef 1];
    OArray [];
    OArray [VRef 3];
    ONode GifStatement {[ "tests" := VRef 2; "consequents" := VRef 4 ]} ].

(** [l op r] on two literals, at address 3. *)
Definition binary (op kind_l l kind_r r : string) : list obj :=
  [ Context.global;
    literal kind_l l;
    literal kind_r r;
    ONode BinaryExpression {[ "op" := VStr op; "left" := VRef 1; "right" := VRef 2 ]} ].

(** The kind of literal that [getType] turns into each builtin type. *)
Definition kind_of (b : builtin) : string :=
  match b with
  | StringType => "array_of_chars"
  | IntType => "whole_number"
  | FloatType => "not_whole_number"
  | BoolType => "true_or_false"
  | NullType => "temp"
  end.

Definition builtins : list builtin :=
  [IntType; FloatType; StringType; NullType; BoolType].

Definition numeric (b : builtin) : bool :=
  match b with
  | IntType | FloatType => true
  | _ => false
  end.

(** The table of the specification for binary expressions: the type of
    the result, or [None] where the operands are refused. *)
Definition spec_binary (op : string) (l r : builtin) : option builtin :=
  if bool_decide (op ∈ ["-"; "+"; "*"; "/"]) then
    if numeric l && numeric r then
      Some (if bool_decide (l = FloatType) || bool_decide (r = FloatType)
            then FloatType else IntType)
    else None
  else if bool_decide (op ∈ ["<"; ">"]) then
    if numeric l && numeric r then Some BoolType else None
  else if bool_decide (op ∈ ["||"; "&&"]) then
    if bool_decide (l = BoolType) && bool_decide (r = BoolType)
    then Some BoolType else None
  else if bool_decide (op ∈ ["="; "<>"]) then
    if bool_decide (l = r) then Some BoolType else None
  else None.

(** What the analyzer makes of [l op r] for literals of types [l] and [r]:
    the type it attaches, or [None] when it raises. *)
Definition analyzed_binary `{Host} (op : string) (l r : builtin) : option val :=
  match analyze 2 (VRef 3) (VRef 0) (store (binary op (kind_of l) "x" (kind_of r) "y")) with
  | (Ok _, σ) => prop σ (VRef 3) "type"
  | _ => None
  end.

(** [var a : array of whole_number[3] := 0;]: the declaration at address 7,
    its array expression at 6. *)
Definition array_decl : list obj :=
  [ Context.global;
    ONode ArrayType {[ "type" := VStr "whole_number" ]};
    ONode ArrayType {[ "type" := VStr "whole_number" ]};
    literal "whole_number" "3";
    literal "whole_number" "0";
    OArray [VRef 4];
    ONode ArrayExpression {[ "type" := VRef 2; "size" := VRef 3; "elements" := VRef 5 ]};
    ONode VariableDeclaration
      {[ "id" := VStr "a"; "type" := VRef 1; "initializer" := VRef 6 ]} ].

(** [var x : whole_number;], a declaration with no initializer, at
    address 1. *)
Definition var_decl : list obj :=
  [ Context.global;
    ONode VariableDeclaration {[ "id" := VStr "x"; "type" := VStr "whole_number" ]} ].

(** [var i : whole_number := 0; i := 1]: the declaration at address 2, the
    assignment at address 5. *)
Definition assign_i : list obj :=
  [ Context.global;
    literal "whole_number" "0";
    ONode VariableDeclaration
      {[ "id" := VStr "i"; "type" := VStr "whole_number"; "initializer" := VRef 1 ]};
    ONode IdExp {[ "reference" := VStr "i" ]};
    literal "whole_number" "1";
    ONode AssignmentStatement {[ "target" := VRef 3; "source" := VRef 4 ]} ].

(** The literal [1] after analysis, at address 0. *)
Definition one_analyzed : list obj :=
  [ ONode Literal {[ "type" := VBuiltin IntType; "value" := VStr "1" ]} ].

(** Two functions named [f], at addresses 0 and 1. *)
Definition two_f : list obj :=
  [ ONode Func {[ "id" := VStr "f" ]}; ONode Func {[ "id" := VStr "f" ]} ].

(** An analyzed expression of type [NullType], at address 0, and an
    instance of [RecordType] at address 1. *)
Definition null_expr : list obj :=
  [ ONode Literal {[ "type" := VBuiltin NullType; "value" := VStr "nil" ]};
    ONode RecordType ∅ ].

(** [x := 1] seen by [isNotReadOnly]: an identifier at address 1 whose [ref]
    is the read-only declaration at address 0, an identifier at address 2
    with no [ref], and a member expression at address 3. *)
Definition targets : list obj :=
  [ ONode VariableDeclaration {[ "id" := VStr "x"; "readOnly" := VBool true ]};
    ONode IdExp {[ "ref" := VRef 0 ]};
    ONode IdExp {[ "reference" := VRef 0 ]};
    ONode MemberExpression {[ "object" := VRef 1 ]} ].

(** A check rejects when it raises the [Error] of [doCheck]. *)
Definition rejects {A} (r : outcome A * state) : Prop :=
  ∃ message, r.1 = Throw (Error message).
Definition passes (r : outcome unit * state) : Prop := r.1 = Ok ().

(** An exception names its rule when it is not an [Error] with an empty
    message. *)
Definition names_rule (e : exn) : Prop :=
  match e with
  | Error message => message ≠ EmptyString
  | _ => True
  end.

(** Every exception that [m] raises names its rule. *)
Definition raises_named {A} (m : M A) : Prop :=
  ∀ σ e σ', m σ = (Throw e, σ') → names_rule e.

(** The text of [v.id] inside a template literal. *)
Definition id_text `{Host} (σ : state) (v : val) : option string :=
  ToString (heap σ) <$> prop σ v "id".

(** A sequence of calls of [javaScriptId], one per element. *)
Definition render `{Host} (vs : list val) : M (list val) :=
  each_from 0 (λ v _, javaScriptId v) vs.

(** The cache of [javaScriptId]: no suffix exceeds [lastId], and no two
    entries share one. *)
Definition cache_ok (σ : state) : Prop :=
  (∀ v n, map σ !! v = Some n → n ≤ lastId σ) ∧
  (∀ v w n, map σ !! v = Some n → map σ !! w = Some n → v = w).

(** From [σ] to [σ']: the store is the same, the cache has grown, and it
    is well-formed if it was. *)
Definition extends (σ σ' : state) : Prop :=
  heap σ' = heap σ ∧ map σ ⊆ map σ' ∧ (cache_ok σ → cache_ok σ').

Definition keeps_store {A} (m : M A) : Prop :=
  ∀ σ r σ', m σ = (r, σ') → extends σ σ'.

(** The kinds that [getType] turns into a builtin type. *)
Definition known_kinds : list string :=
  ["array_of_chars"; "whole_number"; "not_whole_number"; "true_or_false"; "temp"].

(** ** Notions used in the further properties *)

(** A computation that leaves the state as it found it. *)
Definition pure {A} (m : M A) : Prop := ∀ σ, (m σ).2 = σ.

(** The properties that the methods of class [c] in analyzer.js assign on
    [this]. *)
Definition writes (c : cls) : list string :=
  match c with
  | ArrayType | BinaryExpression | Field | Literal | Parameter_
  | VariableDeclaration => ["type"]
  | CallExpression => ["callee"]
  | Func | Method => ["bodyContext"]
  | IdExp => ["reference"; "type"]
  | MemberExpression => ["property"; "type"]
  | ObjectExp => ["ObjContext"]
  | _ => []
  end.

(** [o'] is [o] up to what analysis may write: an instance keeps its class
    and every property outside [writes]; arrays and sets are the same; a
    context keeps its links and its bindings. *)
Definition same_syntax (o o' : obj) : Prop :=
  match o, o' with
  | ONode c props, ONode c' props' =>
      c = c' ∧ ∀ p, p ∉ writes c → props !! p = props' !! p
  | OArray elems, OArray elems' => elems = elems'
  | OContext parent kind owner valueMap, OContext parent' kind' owner' valueMap' =>
      parent = parent' ∧ kind = kind' ∧ owner = owner' ∧ valueMap ⊆ valueMap'
  | OSet members, OSet members' => members = members'
  | _, _ => False
  end.

(** From [σ] to [σ']: the cache of [javaScriptId] is untouched and every
    object of the store is still there, the same up to annotations. *)
Definition annotates (σ σ' : state) : Prop :=
  lastId σ' = lastId σ ∧ map σ' = map σ ∧
  ∀ l o, heap σ !! l = Some o → ∃ o', heap σ' !! l = Some o' ∧ same_syntax o o'.

Definition frames {A} (m : M A) : Prop :=
  ∀ σ r σ', m σ = (r, σ') → annotates σ σ'.

(** The same for a method running on [this], an instance of [c]. *)
Definition frames_on {A} (c : cls) (this : val) (m : M A) : Prop :=
  ∀ σ r σ', instance_of σ this = Some c → m σ = (r, σ') → annotates σ σ'.

(** * Properties *)

(** ** The monad *)

Lemma bind_ok_inv {A B} (m : M A) (k : A → M B) σ :
  is_ok ((m ≫= k) σ) → ∃ a σ', m σ = (Ok a, σ') ∧ is_ok (k a σ').
Proof.
  unfold mbind, M_bind, bind, is_ok.
  destruct (m σ) as [[a|e|] σ'] eqn:Hm; simpl; try tauto.
  intros Hk. by exists a, σ'.
Qed.

Lemma bind_Ok_inv {A B} (m : M A) (k : A → M B) σ b σ'' :
  (m ≫= k) σ = (Ok b, σ'') → ∃ a σ', m σ = (Ok a, σ') ∧ k a σ' = (Ok b, σ'').
Proof.
  unfold mbind, M_bind, bind.
  destruct (m σ) as [[a|e|] σ'] eqn:Hm; try discriminate.
  intros Hk. by exists a, σ'.
Qed.

Lemma bind_Ok {A B} (m : M A) (k : A → M B) σ a σ' :
  m σ = (Ok a, σ') → (m ≫= k) σ = k a σ'.
Proof. unfold mbind, M_bind, bind. by intros ->. Qed.

Lemma bind_Throw {A B} (m : M A) (k : A → M B) σ e σ' :
  m σ = (Throw e, σ') → (m ≫= k) σ = (Throw e, σ').
Proof. unfold mbind, M_bind, bind. by intros ->. Qed.

(** Reading a property leaves the state as it is. *)
Lemma get_state_unchanged v p σ : (get v p σ).2 = σ.
Proof.
  destruct v; simpl; try done.
  by destruct (obj_at (heap σ) l).
Qed.

Lemma get_prop v p σ x : prop σ v p = Some x → get v p σ = (Ok x, σ).
Proof.
  unfold prop. pose proof (get_state_unchanged v p σ) as Hσ.
  destruct (get v p σ) as [[y|e|] σ']; simpl in *; intros [=]; by subst.
Qed.

(** ** The members of [check] that the analyzer calls and check.js lacks *)

Lemma check_isBoolean `{Host} args :
  check "isBoolean" args = not_a_function "check.isBoolean".
Proof. reflexivity. Qed.

Lemma check_isAssignment `{Host} args :
  check "isAssignment" args = not_a_function "check.isAssignment".
Proof. reflexivity. Qed.

Ltac bind_inv H :=
  let a := fresh "a" in
  let σ := fresh "σ" in
  let Hm := fresh "Hm" in
  apply bind_ok_inv in H as (a & σ & Hm & H).

(** No analysis of a [while] completes: after the test comes
    [check.isBoolean]. *)
Lemma WhileStatement_analyze_not_ok `{Host} an this context σ :
  ¬ is_ok (WhileStatement_analyze an this context σ).
Proof.
  unfold WhileStatement_analyze. intros Hok.
  do 4 bind_inv Hok.
  rewrite check_isBoolean in Hok. by bind_inv Hok.
Qed.

(** Nor does any analysis of a [for]. *)
Lemma ForStatement_analyze_not_ok `{Host} an this context σ :
  ¬ is_ok (ForStatement_analyze an this context σ).
Proof.
  unfold ForStatement_analyze. intros Hok.
  do 6 bind_inv Hok.
  rewrite check_isBoolean in Hok. by bind_inv Hok.
Qed.

Lemma each_from_cons_not_ok {A} (f : val → nat → M A) i x l σ :
  ¬ is_ok (f x i σ) → ¬ is_ok (each_from i f (x :: l) σ).
Proof.
  intros Hf Hok. simpl in Hok. bind_inv Hok.
  apply Hf. unfold is_ok. by rewrite Hm.
Qed.

(** Nor does the analysis of an [if] that has a test. *)
Lemma GifStatement_analyze_not_ok `{Host} an this context σ l e es :
  prop σ this "tests" = Some (VRef l) →
  heap σ !! l = Some (OArray (e :: es)) →
  ¬ is_ok (GifStatement_analyze an this context σ).
Proof.
  intros Htests Hl. unfold GifStatement_analyze. intros Hok.
  rewrite (bind_Ok _ _ _ _ _ (get_prop _ _ _ _ Htests)) in Hok.
  bind_inv Hok. clear Hok. unfold forEach in Hm.
  assert (array_elems "forEach" (VRef l) σ = (Ok (e :: es), σ)) as Helems.
  { unfold array_elems, obj_at. by rewrite Hl. }
  rewrite (bind_Ok _ _ _ _ _ Helems) in Hm.
  assert (is_ok ((each_from 0 (λ e _, an e context;; check "isBoolean" [e]) (e :: es)
                   ≫= λ _, mret ()) σ)) as Hok.
  { unfold is_ok. by rewrite Hm. }
  bind_inv Hok. clear Hok.
  eapply (each_from_cons_not_ok _ 0 e es σ); [|unfold is_ok; by rewrite Hm0].
  intros Hok. bind_inv Hok. rewrite check_isBoolean in Hok. done.
Qed.

Lemma analyze_instance `{Host} fuel this context σ c m :
  instance_of σ this = Some c →
  analyze_method (analyze fuel) c = Some m →
  analyze (S fuel) this context σ = m this context σ.
Proof.
  unfold instance_of. destruct this as [| | | | |l| |]; try done.
  destruct (heap σ !! l) as [[c' props| | |]|] eqn:Hl; try done.
  intros [= ->] Hm.
  change (analyze (S fuel) (VRef l) context σ)
    with (call_analyze (analyze fuel) (VRef l) context σ).
  unfold call_analyze.
  rewrite (bind_Ok (method_of "analyze" _ (VRef l)) _ σ m σ); [done|].
  unfold method_of, obj_at. rewrite Hl. simpl. by rewrite Hm.
Qed.

(** Whatever the fuel, the analysis of a [while] or of a [for] does not
    complete. *)
Lemma analyze_loop_not_ok `{Host} fuel this context σ :
  instance_of σ this = Some WhileStatement ∨
  instance_of σ this = Some ForStatement →
  ¬ is_ok (analyze fuel this context σ).
Proof.
  destruct fuel as [|fuel]; [intros _; unfold is_ok; simpl; tauto|].
  intros [Hc|Hc]; erewrite analyze_instance by (exact Hc || reflexivity).
  - apply WhileStatement_analyze_not_ok.
  - apply ForStatement_analyze_not_ok.
Qed.

(** C1 (code bug): the analysis of the well-typed statements
    [while true { }], [for (var i : whole_number := 0; true; i := 1) { }]
    and [if true then { }] does not complete: each raises a TypeError,
    because the analyzer calls [check.isBoolean], which check.js does not
    export. *)
Theorem analyze_loops_and_conditional_raise `{Host} (fuel : nat) :
  (analyze (S (S fuel)) (VRef 3) (VRef 0) (store while_true)).1
    = Throw (TypeError "check.isBoolean is not a function") ∧
  (analyze (S (S (S fuel))) (VRef 9) (VRef 0) (store for_true)).1
    = Throw (TypeError "check.isBoolean is not a function") ∧
  (analyze (S (S fuel)) (VRef 5) (VRef 0) (store gif_true)).1
    = Throw (TypeError "check.isBoolean is not a function").
Proof. repeat split; vm_compute; reflexivity. Qed.

(** On literal operands the analyzer follows the table of the
    specification for [-], [+], [*], [/], [<], [>] and [=]. *)
Lemma binary_table_agrees `{Host} op l r :
  op ∈ ["-"; "+"; "*"; "/"; "<"; ">"; "="] →
  analyzed_binary op l r = VBuiltin <$> spec_binary op l r.
Proof.
  intros Hop. repeat (apply elem_of_cons in Hop as [->|Hop]);
    [..|by apply elem_of_nil in Hop];
    destruct l, r; vm_compute; reflexivity.
Qed.

(** C2 (code bug): [<>] on two strings, which the table accepts with
    result Bool, is refused as "Not a number", since [/[<>]/] matches it
    before [/^[!=]/] is tried, and [<>] on an Int and a Float, which the
    table refuses, is given type Bool; [||] and [&&] on two booleans raise
    a TypeError, since check.js has no [isBoolean]. *)
Theorem binary_inequality_and_logic_raise `{Host} (fuel : nat) :
  (analyze (S (S fuel)) (VRef 3) (VRef 0)
     (store (binary "<>" "array_of_chars" "a" "array_of_chars" "b"))).1
    = Throw (Error "Not a number") ∧
  spec_binary "<>" StringType StringType = Some BoolType ∧
  analyzed_binary "<>" IntType FloatType = Some (VBuiltin BoolType) ∧
  spec_binary "<>" IntType FloatType = None ∧
  (analyze (S (S fuel)) (VRef 3) (VRef 0)
     (store (binary "||" "true_or_false" "true" "true_or_false" "false"))).1
    = Throw (TypeError "check.isBoolean is not a function") ∧
  (analyze (S (S fuel)) (VRef 3) (VRef 0)
     (store (binary "&&" "true_or_false" "true" "true_or_false" "false"))).1
    = Throw (TypeError "check.isBoolean is not a function") ∧
  spec_binary "||" BoolType BoolType = Some BoolType.
Proof. repeat split; vm_compute; reflexivity. Qed.

(** ** Generation *)

Lemma gen_instance `{Host} fuel this σ c m :
  instance_of σ this = Some c →
  gen_method (gen fuel) c = Some m →
  gen (S fuel) this σ = m this σ.
Proof.
  unfold instance_of. destruct this as [| | | | |l| |]; try done.
  destruct (heap σ !! l) as [[c' props| | |]|] eqn:Hl; try done.
  intros [= ->] Hm.
  change (gen (S fuel) (VRef l) σ) with (call_gen (gen fuel) (VRef l) σ).
  unfold call_gen.
  rewrite (bind_Ok (method_of "gen" _ (VRef l)) _ σ m σ); [done|].
  unfold method_of, obj_at. rewrite Hl. simpl. by rewrite Hm.
Qed.

(** [GifStatement.prototype.gen] evaluates the identifier [test], which
    is not bound: it never returns. *)
Lemma GifStatement_gen_not_ok `{Host} g this σ :
  ¬ is_ok (GifStatement_gen g this σ).
Proof.
  unfold GifStatement_gen. intros Hok.
  do 3 bind_inv Hok. by bind_inv Hok.
Qed.

(** So does [ForStatement.prototype.gen]. *)
Lemma ForStatement_gen_not_ok `{Host} g this σ :
  ¬ is_ok (ForStatement_gen g this σ).
Proof.
  unfold ForStatement_gen. intros Hok.
  do 5 bind_inv Hok. by bind_inv Hok.
Qed.

(** Whatever the fuel and the state, generation from an [if] or a [for]
    does not complete. *)
Lemma gen_conditional_or_for_not_ok `{Host} fuel this σ :
  instance_of σ this = Some GifStatement ∨
  instance_of σ this = Some ForStatement →
  ¬ is_ok (gen fuel this σ).
Proof.
  destruct fuel as [|fuel]; [intros _; unfold is_ok; simpl; tauto|].
  intros [Hc|Hc]; erewrite gen_instance by (exact Hc || reflexivity).
  - apply GifStatement_gen_not_ok.
  - apply ForStatement_gen_not_ok.
Qed.

(** Generation from a [while] returns, with the text of the template as
    it stands in the source. *)
Lemma gen_while_true `{Host} fuel :
  (gen (S (S fuel)) (VRef 3) (store while_true)).1
    = Ok (VStr ("while (true) { ))" +:+ newline +:+ "        .join(';')} }")).
Proof. vm_compute. reflexivity. Qed.

(** C3 (code bug): generation raises on well-typed trees.  From
    [if true then { }] it raises a ReferenceError, the method reading an
    unbound identifier [test]; from
    [for (var i : whole_number := 0; true; i := 1) { }] it raises a
    TypeError, the method calling [gen] on the array of assignments; and
    the declaration [var x : whole_number;], which passes analysis, makes
    generation raise a TypeError on its absent initializer. *)
Theorem gen_raises_on_well_typed_trees `{Host} (fuel : nat) :
  (gen (S fuel) (VRef 5) (store gif_true)).1
    = Throw (ReferenceError "test is not defined") ∧
  (gen (S (S fuel)) (VRef 9) (store for_true)).1
    = Throw (TypeError "gen is not a function") ∧
  ∃ σ, analyze (S fuel) (VRef 1) (VRef 0) (store var_decl) = (Ok (), σ) ∧
       (gen (S (S fuel)) (VRef 1) σ).1
         = Throw (TypeError "Cannot read property 'gen' of undefined").
Proof.
  split; [vm_compute; reflexivity|].
  split; [vm_compute; reflexivity|].
  eexists. split; [vm_compute; reflexivity|].
  vm_compute. reflexivity.
Qed.

(** The text that [generate] hands to the formatter is that of [exp.gen()]
    alone. *)
Lemma generate_one `{Host} fuel :
  (generate (S fuel) (VRef 0) (store one_analyzed)).1 =
    match format "1" with
    | inl e => Throw e
    | inr program => Ok (VStr program)
    end.
Proof.
  unfold generate.
  rewrite (bind_Ok _ _ _ (VStr "1") (store one_analyzed)) by (vm_compute; reflexivity).
  rewrite (bind_Ok _ _ _ "1" (store one_analyzed)) by (vm_compute; reflexivity).
  by destruct (format "1").
Qed.

(** C4 (code bug): for the program [1], [generate] returns what the
    formatter makes of the text [1] alone, with no library stub in it
    (the call of [generateLibraryFunctions] is commented out); with a
    formatter that leaves its text unchanged the result is [1].  The stub
    that [generateLibraryFunctions] would produce is a function named
    [undefined_1], not [print]. *)
Theorem generate_has_no_library_stub `{Host} (fuel : nat) :
  (generate (S fuel) (VRef 0) (store one_analyzed)).1
    = match format "1" with
      | inl e => Throw e
      | inr program => Ok (VStr program)
      end ∧
  (@generate plain_host (S fuel) (VRef 0) (store one_analyzed)).1 = Ok (VStr "1") ∧
  (generateLibraryFunctions (store one_analyzed)).1
    = Ok (VStr "function undefined_1(s) {console.log(s);}").
Proof.
  split; [apply generate_one|].
  split; [apply (@generate_one plain_host)|].
  vm_compute. reflexivity.
Qed.

(** ** Arrays *)

(** [isArrayType] and [isArray] compare a [type] with the class
    [ArrayType] itself, which no instance of it is. *)
Lemma isArrayType_raises σ type t :
  prop σ type "type" = Some t → t ≠ VClass ArrayType →
  isArrayType type σ = (Throw (Error "Not an array type"), σ).
Proof.
  intros Ht Hne. unfold isArrayType.
  rewrite (bind_Ok _ _ _ _ _ (get_prop _ _ _ _ Ht)).
  unfold strict_eq. by rewrite bool_decide_eq_false_2.
Qed.

Lemma isArray_raises σ expression t :
  prop σ expression "type" = Some t → t ≠ VClass ArrayType →
  isArray expression σ = (Throw (Error EmptyString), σ).
Proof.
  intros Ht Hne. unfold isArray.
  rewrite (bind_Ok _ _ _ _ _ (get_prop _ _ _ _ Ht)).
  unfold strict_eq. by rewrite bool_decide_eq_false_2.
Qed.

(** The analysis of an array type whose element type is not the class
    [ArrayType] raises. *)
Lemma ArrayType_analyze_raises `{Host} this context σ t :
  prop σ this "type" = Some t → t ≠ VClass ArrayType →
  ArrayType_analyze this context σ = (Throw (Error "Not an array type"), σ).
Proof.
  intros Ht Hne. unfold ArrayType_analyze.
  apply bind_Throw. by apply isArrayType_raises with t.
Qed.

(** C7 (code bug): the analysis of [var a : array of whole_number[3] := 0;]
    raises "Not an array type", on the declaration and on its array
    expression alike, and generation from it raises a TypeError, the
    method calling [gen] on the array of elements. *)
Theorem array_declaration_raises `{Host} (fuel : nat) :
  (analyze (S (S fuel)) (VRef 7) (VRef 0) (store array_decl)).1
    = Throw (Error "Not an array type") ∧
  (analyze (S (S fuel)) (VRef 6) (VRef 0) (store array_decl)).1
    = Throw (Error "Not an array type") ∧
  (gen (S (S (S fuel))) (VRef 7) (store array_decl)).1
    = Throw (TypeError "gen is not a function").
Proof. repeat split; vm_compute; reflexivity. Qed.

(** ** The messages of the checks *)

Create HintDb named discriminated.

Lemma raises_named_ret {A} (a : A) : raises_named (mret a).
Proof. intros σ e σ'. unfold mret, M_ret, ret. discriminate. Qed.

Lemma raises_named_bind {A B} (m : M A) (k : A → M B) :
  raises_named m → (∀ a, raises_named (k a)) → raises_named (m ≫= k).
Proof.
  intros Hm Hk σ e σ''. unfold mbind, M_bind, bind.
  destruct (m σ) as [[a|e'|] σ'] eqn:Hmσ; try discriminate.
  - apply Hk.
  - intros [= -> ->]. by eapply Hm.
Qed.

Lemma raises_named_get v p : raises_named (get v p).
Proof.
  intros σ e σ'. destruct v; simpl; try discriminate;
    try (intros [= <- _]; exact I).
  destruct (obj_at (heap σ) l); discriminate.
Qed.

Lemma raises_named_get_index v i : raises_named (get_index v i).
Proof.
  intros σ e σ'. destruct v; simpl; try discriminate;
    try (intros [= <- _]; exact I).
  destruct (obj_at (heap σ) l); discriminate.
Qed.

Lemma raises_named_get_state : raises_named get_state.
Proof. intros σ e σ'. discriminate. Qed.

Lemma raises_named_str `{Host} v : raises_named (str v).
Proof.
  apply raises_named_bind; [apply raises_named_get_state|].
  intros σ. apply raises_named_ret.
Qed.

Lemma raises_named_doCheck condition message :
  message ≠ EmptyString → raises_named (doCheck condition (Some message)).
Proof.
  intros Hne σ e σ'. unfold doCheck.
  destruct condition; simpl; [discriminate|].
  by intros [= <- _].
Qed.

Lemma raises_named_array_elems method v : raises_named (array_elems method v).
Proof.
  intros σ e σ'. destruct v; simpl; try (intros [= <- _]; exact I).
  destruct (obj_at (heap σ) l); try discriminate; by intros [= <- _].
Qed.

Lemma raises_named_set_has usedFields field : raises_named (set_has usedFields field).
Proof.
  intros σ e σ'. destruct usedFields; simpl; try (intros [= <- _]; exact I).
  destruct (obj_at (heap σ) l); try discriminate; by intros [= <- _].
Qed.

Lemma raises_named_each_from {A} (f : val → nat → M A) l :
  (∀ x i, raises_named (f x i)) → ∀ i, raises_named (each_from i f l).
Proof.
  intros Hf. induction l as [|x l IH]; intros i; simpl.
  - apply raises_named_ret.
  - apply raises_named_bind; [apply Hf|]. intros y.
    apply raises_named_bind; [apply IH|]. intros ys.
    apply raises_named_ret.
Qed.

Lemma raises_named_forEach {A} v (f : val → nat → M A) :
  (∀ x i, raises_named (f x i)) → raises_named (forEach v f).
Proof.
  intros Hf. apply raises_named_bind; [apply raises_named_array_elems|].
  intros elems. apply raises_named_bind; [by apply raises_named_each_from|].
  intros _. apply raises_named_ret.
Qed.

Global Hint Resolve raises_named_ret raises_named_get raises_named_get_index
  raises_named_get_state raises_named_str raises_named_array_elems
  raises_named_set_has : named.

Ltac named :=
  repeat first
    [ apply raises_named_forEach; intros ? ?
    | apply raises_named_doCheck; discriminate
    | solve [auto with named]
    | apply raises_named_bind; [|intros ?]
    | match goal with |- raises_named (if ?c then _ else _) => destruct c end ].

Lemma raises_named_isAssignableTo `{Host} expression type :
  raises_named (isAssignableTo expression type).
Proof. unfold isAssignableTo. named. Qed.

(** Every member of check.js other than [isArray] raises with a message
    that is not empty, or with a TypeError of the language. *)
Lemma checks_name_their_rule `{Host} name f args :
  (name, f) ∈ check_exports → name ≠ "isArray" → raises_named (f args).
Proof.
  unfold check_exports. intros Hin Hname.
  repeat (apply elem_of_cons in Hin as [[= -> ->]|Hin]); try done.
  - unfold isArrayType. named.
  - unfold isInteger. named.
  - unfold isNumber. named.
  - unfold isString. named.
  - unfold isIntegerOrString. named.
  - unfold isFunction. named.
  - unfold expressionsHaveTheSameType. named.
  - apply raises_named_isAssignableTo.
  - unfold isNotReadOnly. named.
  - unfold fieldHasNotBeenUsed. named.
  - unfold legalArguments. named.
  - by apply elem_of_nil in Hin.
Qed.

(** C8 (code bug): [isArray] on the analyzed literal [1], which is no
    array, raises an [Error] whose message is empty: the call of [doCheck]
    in [isArray] passes no message. *)
Theorem isArray_raises_with_empty_message :
  (isArray (VRef 0) (store one_analyzed)).1 = Throw (Error EmptyString).
Proof. vm_compute. reflexivity. Qed.

(** ** Reading and writing properties *)

Lemma get_cases v p σ :
  (∃ x, get v p σ = (Ok x, σ)) ∨ (∃ m, get v p σ = (Throw (TypeError m), σ)).
Proof.
  destruct v; simpl; eauto.
  destruct (obj_at (heap σ) l); eauto.
Qed.

Lemma instance_of_lookup σ this c :
  instance_of σ this = Some c →
  ∃ l props, this = VRef l ∧ heap σ !! l = Some (ONode c props).
Proof.
  unfold instance_of. destruct this as [| | | | |l| |]; try done.
  destruct (heap σ !! l) as [[c' props| | |]|] eqn:Hl; try done.
  intros [= ->]. eauto.
Qed.

Lemma set_instance σ l c props p x :
  heap σ !! l = Some (ONode c props) →
  set (VRef l) p x σ =
    (Ok (), State (<[l := ONode c (<[p := x]> props)]> (heap σ)) (lastId σ) (map σ)).
Proof. intros Hl. unfold set, obj_at. by rewrite Hl. Qed.

Lemma prop_set_instance σ l c props p x :
  heap σ !! l = Some (ONode c props) →
  prop (State (<[l := ONode c (<[p := x]> props)]> (heap σ)) (lastId σ) (map σ))
    (VRef l) p = Some x.
Proof.
  intros Hl. unfold prop, get, obj_at. simpl.
  rewrite list_lookup_insert_eq by (by eapply lookup_lt_Some).
  simpl. by rewrite lookup_insert_eq.
Qed.

(** ** Literals *)

(** The analysis of a literal replaces its kind [t] by [getType t]. *)
Lemma analyze_Literal `{Host} fuel this context σ t :
  instance_of σ this = Some Literal →
  prop σ this "type" = Some t →
  ∃ σ', analyze (S fuel) this context σ = (Ok (), σ') ∧
        prop σ' this "type" = Some (getType t).
Proof.
  intros Hc Ht.
  erewrite analyze_instance by (exact Hc || reflexivity).
  apply instance_of_lookup in Hc as (l & props & -> & Hl).
  unfold Literal_analyze.
  rewrite (bind_Ok _ _ _ _ _ (get_prop _ _ _ _ Ht)).
  rewrite (set_instance _ _ _ _ _ _ Hl).
  eexists. split; [done|]. by apply prop_set_instance.
Qed.

Lemma getType_changes v :
  getType v ≠ v ↔ ∃ s, v = VStr s ∧ s ∈ known_kinds.
Proof.
  split.
  - unfold getType, strict_eq. repeat case_bool_decide; subst; try done;
      intros _; eexists; (split; [done|]); unfold known_kinds; set_solver.
  - intros (s & -> & Hs). unfold known_kinds in Hs.
    repeat (apply elem_of_cons in Hs as [->|Hs]); try done.
    by apply elem_of_nil in Hs.
Qed.

(** C9: [getType] maps the kind [temp] to [NullType]; the values that
    [getType] does not return unchanged are exactly the five kind strings
    [array_of_chars], [whole_number], [not_whole_number], [true_or_false]
    and [temp], so [temp] is the only one beyond the four of the
    specification; and the analysis of a literal of kind [temp] completes
    and leaves it with type [NullType]. *)
Theorem getType_temp_is_NullType `{Host} (fuel : nat) (this context : val) (σ : state) :
  getType (VStr "temp") = VBuiltin NullType ∧
  (∀ v, getType v ≠ v ↔ ∃ s, v = VStr s ∧ s ∈ known_kinds) ∧
  (instance_of σ this = Some Literal →
   prop σ this "type" = Some (VStr "temp") →
   ∃ σ', analyze (S fuel) this context σ = (Ok (), σ') ∧
         prop σ' this "type" = Some (VBuiltin NullType)).
Proof.
  split; [done|]. split; [apply getType_changes|].
  intros Hc Ht. by apply (analyze_Literal fuel this context σ (VStr "temp")).
Qed.

Lemma getType_temp_is_NullType_witness :
  instance_of (store [literal "temp" "nil"]) (VRef 0) = Some Literal ∧
  prop (store [literal "temp" "nil"]) (VRef 0) "type" = Some (VStr "temp") ∧
  ∃ σ', @analyze plain_host 1 (VRef 0) VUndefined (store [literal "temp" "nil"]) = (Ok (), σ') ∧
        prop σ' (VRef 0) "type" = Some (VBuiltin NullType).
Proof.
  split; [reflexivity|]. split; [reflexivity|].
  apply (@getType_temp_is_NullType plain_host 0 (VRef 0) VUndefined
           (store [literal "temp" "nil"])); reflexivity.
Defined.

(** ** Assignment to read-only variables *)



(** An identifier that has a [reference] and no [ref], as
    [IdExp.prototype.analyze] leaves it, makes [isNotReadOnly] raise a
    TypeError. *)
Lemma isNotReadOnly_without_ref :
  (isNotReadOnly (VRef 2) (store targets)).1
    = Throw (TypeError "Cannot read property 'readOnly' of undefined").
Proof. vm_compute. reflexivity. Qed.

(** So does the analysis of [i := 1] after [var i : whole_number := 0]. *)
Lemma analyze_assignment_to_identifier `{Host} fuel :
  ∃ σ, analyze (S (S fuel)) (VRef 2) (VRef 0) (store assign_i) = (Ok (), σ) ∧
       (analyze (S (S fuel)) (VRef 5) (VRef 0) σ).1
         = Throw (TypeError "Cannot read property 'readOnly' of undefined").
Proof.
  eexists. split; [vm_compute; reflexivity|].
  vm_compute. reflexivity.
Qed.

(** ** Assignability *)

(** C6, as amended: the check passes for an expression and its own type;
    for an expression of type [NullType] it passes against every target
    whose constructor is [RecordType], and it rejects the builtin targets
    [IntType], [FloatType], [StringType] and [BoolType]. *)
Theorem isAssignableTo_reflexive_null_to_records `{Host} (σ : state) (x t : val) :
  prop σ x "type" = Some t →
  passes (isAssignableTo x t σ) ∧
  (t = VBuiltin NullType →
   (∀ r, prop σ r "constructor" = Some (VClass RecordType) →
         passes (isAssignableTo x r σ)) ∧
   (∀ b, b ≠ NullType → rejects (isAssignableTo x (VBuiltin b) σ))).
Proof.
  intros Ht. unfold passes, rejects, isAssignableTo.
  unfold mbind, M_bind, bind, mret, M_ret, ret, doCheck, throw, get_state, strict_eq.
  rewrite (get_prop _ _ _ _ Ht). split.
  - destruct (bool_decide (t = VBuiltin NullType)) eqn:Hnull.
    + apply bool_decide_eq_true in Hnull as ->. by vm_compute.
    + simpl. by rewrite bool_decide_eq_true_2.
  - intros ->. rewrite bool_decide_eq_true_2 by done. split.
    + intros r Hr. rewrite (get_prop _ _ _ _ Hr).
      by rewrite bool_decide_eq_true_2.
    + intros b Hb. simpl.
      rewrite (bool_decide_eq_false_2 (VBuiltin NullType = VBuiltin b)) by congruence.
      simpl. eauto.
Qed.

Lemma isAssignableTo_reflexive_null_to_records_witness :
  prop (store null_expr) (VRef 0) "type" = Some (VBuiltin NullType) ∧
  passes (@isAssignableTo plain_host (VRef 0) (VRef 1) (store null_expr)) ∧
  rejects (@isAssignableTo plain_host (VRef 0) (VBuiltin IntType) (store null_expr)).
Proof.
  split; [reflexivity|].
  destruct (@isAssignableTo_reflexive_null_to_records plain_host
              (store null_expr) (VRef 0) (VBuiltin NullType)) as [_ Hnull];
    [reflexivity|].
  destruct (Hnull eq_refl) as [Hrecord Hbuiltin].
  split; [by apply Hrecord|by apply Hbuiltin].
Defined.

(** C6, as stated, fails: an expression of type [NullType] is accepted
    against the builtin target [NullType], the two types being equal. *)
Lemma null_is_assignable_to_null :
  prop (store null_expr) (VRef 0) "type" = Some (VBuiltin NullType) ∧
  passes (@isAssignableTo plain_host (VRef 0) (VBuiltin NullType) (store null_expr)) ∧
  ¬ rejects (@isAssignableTo plain_host (VRef 0) (VBuiltin NullType) (store null_expr)).
Proof.
  split; [reflexivity|]. split; [reflexivity|].
  intros [message Hm]. vm_compute in Hm. discriminate.
Qed.

(** ** Generated names *)

Lemma cache_ok_store h : cache_ok (store h).
Proof. split; intros *; simpl; by rewrite lookup_empty. Qed.

Lemma get_heap v p σ1 σ2 :
  heap σ1 = heap σ2 → (get v p σ1).1 = (get v p σ2).1.
Proof.
  intros Hh. destruct v; simpl; try done. rewrite Hh.
  by destruct (obj_at (heap σ2) l).
Qed.

Lemma id_text_heap `{Host} v σ1 σ2 :
  heap σ1 = heap σ2 → id_text σ1 v = id_text σ2 v.
Proof.
  intros Hh. unfold id_text, prop. by rewrite (get_heap _ _ _ _ Hh), Hh.
Qed.

Lemma cache_ok_insert σ v :
  cache_ok σ → map σ !! v = None →
  cache_ok (State (heap σ) (lastId σ + 1) (<[v := lastId σ + 1]> (map σ))).
Proof.
  intros [Hle Hinj] Hv. split; simpl.
  - intros w n. rewrite lookup_insert. case_decide.
    + intros [= <-]. lia.
    + intros Hw. apply Hle in Hw. lia.
  - intros w1 w2 n. rewrite !lookup_insert. repeat case_decide; subst.
    + done.
    + intros [= <-] Hw. apply Hle in Hw. lia.
    + intros Hw [= <-]. apply Hle in Hw. lia.
    + apply Hinj.
Qed.

Lemma ToString_VNum `{Host} h n : ToString h (VNum n) = pretty n.
Proof. unfold ToString. by destruct (length h). Qed.

(** One call: the store is unchanged, the cache grows and stays
    well-formed, and the name is the text of [v.id], an underscore and the
    suffix that the cache now holds for [v]. *)
Lemma javaScriptId_Ok `{Host} v σ o σ' :
  cache_ok σ → javaScriptId v σ = (Ok o, σ') →
  heap σ' = heap σ ∧ cache_ok σ' ∧ map σ ⊆ map σ' ∧
  ∃ n t, map σ' !! v = Some n ∧ id_text σ v = Some t ∧
         o = VStr (t +:+ "_" +:+ pretty n).
Proof.
  intros Hok. unfold javaScriptId.
  unfold mbind at 1, M_bind at 1, bind at 1, get_state.
  intros Hrun. apply bind_Ok_inv in Hrun as ([] & σ1 & Hcache & Hrun).
  assert (heap σ1 = heap σ ∧ cache_ok σ1 ∧ map σ ⊆ map σ1 ∧
          ∃ n, map σ1 !! v = Some n) as (Hh & Hok1 & Hsub & n & Hn).
  { case_bool_decide as Hv.
    - injection Hcache as <-. destruct Hv as [n Hn]. eauto 10.
    - unfold put_state in Hcache. injection Hcache as <-.
      apply eq_None_not_Some in Hv. simpl.
      split; [done|]. split; [by apply cache_ok_insert|].
      split; [by apply insert_subseteq|].
      exists (lastId σ + 1). by rewrite lookup_insert_eq. }
  clear Hcache.
  apply bind_Ok_inv in Hrun as (i & σ2 & Hid & Hrun).
  pose proof (get_state_unchanged v "id" σ1) as Hσ2.
  rewrite Hid in Hσ2. simpl in Hσ2. subst σ2.
  unfold str, get_state in Hrun.
  unfold mbind, M_bind, bind, mret, M_ret, ret in Hrun. simpl in Hrun.
  rewrite Hn in Hrun. simpl in Hrun. rewrite ToString_VNum in Hrun.
  injection Hrun as <- <-.
  split; [done|]. split; [done|]. split; [done|].
  exists n, (ToString (heap σ1) i). split; [done|]. split; [|done].
  rewrite <- (id_text_heap v σ1 σ Hh). unfold id_text, prop. by rewrite Hid.
Qed.

Lemma render_from `{Host} vs : ∀ i σ outs σ',
  cache_ok σ → each_from i (λ v _, javaScriptId v) vs σ = (Ok outs, σ') →
  heap σ' = heap σ ∧ cache_ok σ' ∧ map σ ⊆ map σ' ∧
  Forall2 (λ v o, ∃ n t, map σ' !! v = Some n ∧ id_text σ v = Some t ∧
                         o = VStr (t +:+ "_" +:+ pretty n)) vs outs.
Proof.
  induction vs as [|v vs IH]; intros i σ outs σ' Hok Hrun; simpl in Hrun.
  - unfold mret, M_ret, ret in Hrun. injection Hrun as <- <-.
    split; [done|]. split; [done|]. split; [done|]. constructor.
  - apply bind_Ok_inv in Hrun as (o & σ1 & Hv & Hrun).
    apply bind_Ok_inv in Hrun as (os & σ2 & Hvs & Hrun).
    unfold mret, M_ret, ret in Hrun. injection Hrun as <- <-.
    apply javaScriptId_Ok in Hv as (Hh1 & Hok1 & Hsub1 & n & t & Hn & Ht & ->); [|done].
    apply IH in Hvs as (Hh2 & Hok2 & Hsub2 & Hall); [|done].
    split; [congruence|]. split; [done|]. split; [by etrans|].
    constructor.
    + exists n, t. split; [|done]. by eapply lookup_weaken.
    + eapply Forall2_impl; [|exact Hall]. simpl.
      intros w o (m & u & Hm & Hu & ->). exists m, u.
      split; [done|]. split; [|done]. by rewrite <- (id_text_heap w σ1 σ Hh1).
Qed.

(** C5: in a sequence of calls of [javaScriptId] that starts from a
    well-formed cache and completes, two calls on the same object return
    the same name, and two calls on distinct objects whose [id] has the
    same text return different names. *)
Theorem javaScriptId_stable_and_unique `{Host} (σ σ' : state) (vs outs : list val)
    (i j : nat) (v w o p : val) :
  cache_ok σ →
  render vs σ = (Ok outs, σ') →
  vs !! i = Some v → vs !! j = Some w →
  outs !! i = Some o → outs !! j = Some p →
  (v = w → o = p) ∧
  (v ≠ w → id_text σ v = id_text σ w → o ≠ p).
Proof.
  intros Hok Hrun Hi Hj Hoi Hoj.
  apply render_from in Hrun as (_ & [_ Hinj] & _ & Hall); [|done].
  destruct (Forall2_lookup_lr _ _ _ _ _ _ Hall Hi Hoi) as (n & t & Hn & Ht & ->).
  destruct (Forall2_lookup_lr _ _ _ _ _ _ Hall Hj Hoj) as (m & u & Hm & Hu & ->).
  split.
  - intros <-. congruence.
  - intros Hne Hid [= Heq]. apply Hne.
    assert (t = u) as <- by congruence.
    apply (inj (String.app t)), (inj (String.app "_")), (inj pretty) in Heq.
    subst m. by eapply Hinj.
Qed.

Lemma javaScriptId_stable_and_unique_witness :
  cache_ok (store two_f) ∧
  (@render plain_host [VRef 0; VRef 1; VRef 0] (store two_f)).1
    = Ok [VStr "f_1"; VStr "f_2"; VStr "f_1"] ∧
  VStr "f_1" ≠ VStr "f_2".
Proof.
  split; [apply cache_ok_store|]. split; [reflexivity|].
  eapply (@javaScriptId_stable_and_unique plain_host (store two_f)
            (@render plain_host [VRef 0; VRef 1; VRef 0] (store two_f)).2
            [VRef 0; VRef 1; VRef 0] [VStr "f_1"; VStr "f_2"; VStr "f_1"]
            0 1 (VRef 0) (VRef 1) (VStr "f_1") (VStr "f_2"));
    try reflexivity; [apply cache_ok_store|discriminate].
Defined.

(** ** Generation and the store *)

Lemma extends_refl σ : extends σ σ.
Proof. by split. Qed.

Lemma extends_trans σ1 σ2 σ3 : extends σ1 σ2 → extends σ2 σ3 → extends σ1 σ3.
Proof.
  intros (Hh1 & Hm1 & Hc1) (Hh2 & Hm2 & Hc2).
  split; [congruence|]. split; [by etrans|]. auto.
Qed.

Lemma keeps_ret {A} (a : A) : keeps_store (mret a).
Proof. intros σ r σ' [= _ <-]. apply extends_refl. Qed.

Lemma keeps_throw {A} e : keeps_store (@throw A e).
Proof. intros σ r σ' [= _ <-]. apply extends_refl. Qed.

Lemma keeps_bind {A B} (m : M A) (k : A → M B) :
  keeps_store m → (∀ a, keeps_store (k a)) → keeps_store (m ≫= k).
Proof.
  intros Hm Hk σ r σ''. unfold mbind, M_bind, bind.
  destruct (m σ) as [[a|e|] σ'] eqn:Hmσ.
  - intros Hkσ. eapply extends_trans; [by eapply Hm|by eapply Hk].
  - intros [= _ <-]. by eapply Hm.
  - intros [= _ <-]. by eapply Hm.
Qed.

Lemma keeps_get v p : keeps_store (get v p).
Proof.
  intros σ r σ' Hget. pose proof (get_state_unchanged v p σ) as Hσ.
  rewrite Hget in Hσ. simpl in Hσ. subst σ'. apply extends_refl.
Qed.

Lemma keeps_get_state : keeps_store get_state.
Proof. intros σ r σ' [= _ <-]. apply extends_refl. Qed.

Lemma keeps_str `{Host} v : keeps_store (str v).
Proof.
  apply keeps_bind; [apply keeps_get_state|]. intros σ. apply keeps_ret.
Qed.

Lemma keeps_join `{Host} l sep : keeps_store (join l sep).
Proof.
  apply keeps_bind; [apply keeps_get_state|]. intros σ. apply keeps_ret.
Qed.

Lemma keeps_array_elems method v : keeps_store (array_elems method v).
Proof.
  intros σ r σ'. destruct v; simpl; try (intros [= _ <-]; apply extends_refl).
  destruct (obj_at (heap σ) l); intros [= _ <-]; apply extends_refl.
Qed.

Lemma keeps_method_of {A} name (methods : cls → option A) x :
  keeps_store (method_of name methods x).
Proof.
  intros σ r σ'. unfold method_of.
  destruct x; try (intros [= _ <-]; apply extends_refl).
  destruct (obj_at (heap σ) l); try (intros [= _ <-]; apply extends_refl).
  destruct (methods c); intros [= _ <-]; apply extends_refl.
Qed.

Lemma keeps_each_from {A} (f : val → nat → M A) l :
  (∀ x i, keeps_store (f x i)) → ∀ i, keeps_store (each_from i f l).
Proof.
  intros Hf. induction l as [|x l IH]; intros i; simpl.
  - apply keeps_ret.
  - apply keeps_bind; [apply Hf|]. intros y.
    apply keeps_bind; [apply IH|]. intros ys. apply keeps_ret.
Qed.

Lemma keeps_map_array {A} v (f : val → M A) :
  (∀ x, keeps_store (f x)) → keeps_store (map_array v f).
Proof.
  intros Hf. apply keeps_bind; [apply keeps_array_elems|].
  intros elems. by apply keeps_each_from.
Qed.

Lemma keeps_javaScriptId `{Host} v : keeps_store (javaScriptId v).
Proof.
  intros σ r σ'. unfold javaScriptId.
  unfold mbind at 1, M_bind at 1, bind at 1, get_state.
  set (rest := λ _ : (), get v "id" ≫= _).
  assert (∀ u, keeps_store (rest u)) as Hrest.
  { intros u. unfold rest.
    apply keeps_bind; [apply keeps_get|]. intros i.
    apply keeps_bind; [apply keeps_str|]. intros t.
    apply keeps_bind; [apply keeps_get_state|]. intros σ0.
    apply keeps_bind; [apply keeps_str|]. intros n. apply keeps_ret. }
  case_bool_decide as Hv.
  - apply keeps_bind; [apply keeps_ret|done].
  - unfold mbind, M_bind, bind, put_state. intros Hrun.
    eapply extends_trans; [|by eapply Hrest].
    apply eq_None_not_Some in Hv.
    split; [done|]. split; [by apply insert_subseteq|].
    intros Hok. by apply cache_ok_insert.
Qed.

Create HintDb keeps.

Global Hint Resolve keeps_ret keeps_throw keeps_get keeps_get_state keeps_str
  keeps_join keeps_array_elems keeps_method_of keeps_javaScriptId : keeps.

Ltac keeps :=
  repeat first
    [ apply keeps_map_array; intros ?
    | solve [auto with keeps]
    | apply keeps_bind; [|intros ?]
    | match goal with |- keeps_store (if ?c then _ else _) => destruct c end ].

Lemma keeps_gen_method `{Host} g c m :
  (∀ x, keeps_store (g x)) → gen_method g c = Some m → ∀ x, keeps_store (m x).
Proof.
  intros Hg Hm x. destruct c; simpl in Hm; try discriminate;
    injection Hm as <-.
  - unfold ArrayExpression_gen. keeps.
  - unfold AssignmentStatement_gen. keeps.
  - unfold BinaryExpression_gen, makeOp. keeps.
  - unfold CallExpression_gen. keeps.
  - unfold Field_gen. keeps.
  - unfold ForStatement_gen, free_test. keeps.
  - unfold Func_gen. keeps.
  - unfold GifStatement_gen, free_test. keeps.
  - unfold IdExp_gen. keeps.
  - unfold Literal_gen. keeps.
  - unfold MemberExpression_gen. keeps.
  - unfold Method_gen. keeps.
  - unfold ObjectExp_gen. keeps.
  - unfold Parameter_gen. keeps.
  - unfold ReturnStatement_gen. keeps.
  - unfold ThrowStatement_gen. keeps.
  - unfold VariableDeclaration_gen. keeps.
  - unfold WhileStatement_gen. keeps.
Qed.

(** Generation, whatever its outcome, leaves the store as it is and only
    adds entries to the cache of [javaScriptId], which stays well-formed:
    a name once given to an object is the name it keeps. *)
Lemma gen_extends `{Host} fuel : ∀ x, keeps_store (gen fuel x).
Proof.
  induction fuel as [|fuel IH]; intros x; simpl.
  - intros σ r σ' [= _ <-]. apply extends_refl.
  - unfold call_gen. intros σ r σ'.
    unfold mbind, M_bind, bind.
    destruct (method_of "gen" (gen_method (gen fuel)) x σ) as [[m|e|] σ1] eqn:Hm.
    + pose proof Hm as Hm'. apply keeps_method_of in Hm'.
      intros Hrun. eapply extends_trans; [done|].
      assert (∃ c, gen_method (gen fuel) c = Some m) as [c Hc].
      { unfold method_of in Hm. destruct x; try discriminate.
        destruct (obj_at (heap σ) l); try discriminate.
        destruct (gen_method (gen fuel) c) eqn:Hc; try discriminate.
        injection Hm as <- _. eauto. }
      by eapply (keeps_gen_method (gen fuel) c m IH Hc x).
    + intros [= _ <-]. by eapply keeps_method_of.
    + intros [= _ <-]. by eapply keeps_method_of.
Qed.

(** * Further properties *)

(** ** The checks leave the state alone *)

Lemma pure_ret {A} (a : A) : pure (mret a).
Proof. by intros σ. Qed.

Lemma pure_throw {A} e : pure (@throw A e).
Proof. by intros σ. Qed.

Lemma pure_bind {A B} (m : M A) (k : A → M B) :
  pure m → (∀ a, pure (k a)) → pure (m ≫= k).
Proof.
  intros Hm Hk σ. unfold mbind, M_bind, bind.
  specialize (Hm σ). destruct (m σ) as [[a|e|] σ']; simpl in *; subst; [apply Hk|done..].
Qed.

Lemma pure_get v p : pure (get v p).
Proof. intros σ. apply get_state_unchanged. Qed.

Lemma pure_get_index v i : pure (get_index v i).
Proof.
  intros σ. destruct v; simpl; try done. by destruct (obj_at (heap σ) l).
Qed.

Lemma pure_get_state : pure get_state.
Proof. by intros σ. Qed.

Lemma pure_str `{Host} v : pure (str v).
Proof. apply pure_bind; [apply pure_get_state|]. intros σ. apply pure_ret. Qed.

Lemma pure_join `{Host} l sep : pure (join l sep).
Proof. apply pure_bind; [apply pure_get_state|]. intros σ. apply pure_ret. Qed.

Lemma pure_doCheck condition message : pure (doCheck condition message).
Proof. intros σ. unfold doCheck. by destruct condition. Qed.

Lemma pure_array_elems method v : pure (array_elems method v).
Proof.
  intros σ. destruct v; simpl; try done. by destruct (obj_at (heap σ) l).
Qed.

Lemma pure_set_has usedFields field : pure (set_has usedFields field).
Proof.
  intros σ. destruct usedFields; simpl; try done. by destruct (obj_at (heap σ) l).
Qed.

Lemma pure_instanceof v c : pure (instanceof v c).
Proof.
  intros σ. destruct v; simpl; try done. by destruct (obj_at (heap σ) l).
Qed.

Lemma pure_method_of {A} name (methods : cls → option A) x :
  pure (method_of name methods x).
Proof.
  intros σ. unfold method_of. destruct x; try done.
  destruct (obj_at (heap σ) l); try done. by destruct (methods c).
Qed.

Lemma pure_each_from {A} (f : val → nat → M A) l :
  (∀ x i, pure (f x i)) → ∀ i, pure (each_from i f l).
Proof.
  intros Hf. induction l as [|x l IH]; intros i; simpl.
  - apply pure_ret.
  - apply pure_bind; [apply Hf|]. intros y.
    apply pure_bind; [apply IH|]. intros ys. apply pure_ret.
Qed.

Lemma pure_forEach {A} v (f : val → nat → M A) :
  (∀ x i, pure (f x i)) → pure (forEach v f).
Proof.
  intros Hf. apply pure_bind; [apply pure_array_elems|].
  intros elems. apply pure_bind; [by apply pure_each_from|].
  intros _. apply pure_ret.
Qed.

Create HintDb pure.

Global Hint Resolve pure_ret pure_throw pure_get pure_get_index pure_get_state
  pure_str pure_join pure_doCheck pure_array_elems pure_set_has pure_instanceof
  pure_method_of : pure.

Ltac pure_tac :=
  repeat first
    [ apply pure_forEach; intros ? ?
    | solve [auto with pure]
    | apply pure_bind; [|intros ?]
    | match goal with |- pure (if ?c then _ else _) => destruct c end ].

Lemma assoc_elem_of {A} k (l : list (string * A)) x :
  assoc k l = Some x → (k, x) ∈ l.
Proof.
  induction l as [|[k' y] l IH]; simpl; [done|].
  case_bool_decide as Hk.
  - intros [= ->]. subst. apply list_elem_of_here.
  - intros Hx. apply list_elem_of_further. auto.
Qed.

Lemma pure_check_member `{Host} name f args :
  (name, f) ∈ check_exports → pure (f args).
Proof.
  unfold check_exports. intros Hin.
  repeat (apply elem_of_cons in Hin as [[= -> ->]|Hin]).
  - unfold isArray. pure_tac.
  - unfold isArrayType. pure_tac.
  - unfold isInteger. pure_tac.
  - unfold isNumber. pure_tac.
  - unfold isString. pure_tac.
  - unfold isIntegerOrString. pure_tac.
  - unfold isFunction. pure_tac.
  - unfold expressionsHaveTheSameType. pure_tac.
  - unfold isAssignableTo. pure_tac.
  - unfold isNotReadOnly. pure_tac.
  - unfold fieldHasNotBeenUsed. pure_tac.
  - unfold legalArguments. pure_tac.
  - apply pure_ret.
  - by apply elem_of_nil in Hin.
Qed.

Lemma pure_check `{Host} name args : pure (check name args).
Proof.
  unfold check. destruct (assoc name check_exports) as [f|] eqn:Hf.
  - apply assoc_elem_of in Hf. by apply pure_check_member with name.
  - apply pure_throw.
Qed.

(** X1: a call [check.name(args)], whatever the name and the arguments and
    whether it passes or raises, leaves the store and the cache of names
    as they were. *)
Theorem checks_leave_the_state `{Host} (name : string) (args : list val) (σ : state) :
  (check name args σ).2 = σ.
Proof. apply pure_check. Qed.

(** ** What analysis writes *)

Lemma same_syntax_refl o : same_syntax o o.
Proof. destruct o; simpl; auto. Qed.

Lemma same_syntax_trans o1 o2 o3 :
  same_syntax o1 o2 → same_syntax o2 o3 → same_syntax o1 o3.
Proof.
  destruct o1, o2, o3; simpl; try done.
  - intros [<- H1] [<- H2]. split; [done|]. intros p Hp.
    by rewrite H1, H2.
  - congruence.
  - intros (<- & <- & <- & H1) (<- & <- & <- & H2).
    repeat split; by etrans.
  - congruence.
Qed.

Lemma annotates_refl σ : annotates σ σ.
Proof.
  split; [done|]. split; [done|]. intros l o Hl. exists o.
  split; [done|]. apply same_syntax_refl.
Qed.

Lemma annotates_trans σ1 σ2 σ3 :
  annotates σ1 σ2 → annotates σ2 σ3 → annotates σ1 σ3.
Proof.
  intros (Hi1 & Hm1 & Ho1) (Hi2 & Hm2 & Ho2).
  split; [congruence|]. split; [congruence|]. intros l o Hl.
  destruct (Ho1 l o Hl) as (o' & Hl' & Hs1).
  destruct (Ho2 l o' Hl') as (o'' & Hl'' & Hs2).
  exists o''. split; [done|]. by eapply same_syntax_trans.
Qed.

Lemma annotates_instance_of σ σ' this c :
  annotates σ σ' → instance_of σ this = Some c → instance_of σ' this = Some c.
Proof.
  intros (_ & _ & Ho) Hc.
  apply instance_of_lookup in Hc as (l & props & -> & Hl).
  destruct (Ho l _ Hl) as (o' & Hl' & Hs). simpl.
  rewrite Hl'. destruct o'; simpl in Hs; try done. by destruct Hs as [<- _].
Qed.

Lemma pure_frames {A} (m : M A) : pure m → frames m.
Proof.
  intros Hm σ r σ' Hrun. specialize (Hm σ). rewrite Hrun in Hm.
  simpl in Hm. subst σ'. apply annotates_refl.
Qed.

Lemma frames_frames_on {A} c this (m : M A) : frames m → frames_on c this m.
Proof. intros Hm σ r σ' _. apply Hm. Qed.

Lemma frames_bind {A B} (m : M A) (k : A → M B) :
  frames m → (∀ a, frames (k a)) → frames (m ≫= k).
Proof.
  intros Hm Hk σ r σ''. unfold mbind, M_bind, bind.
  destruct (m σ) as [[a|e|] σ'] eqn:Hmσ.
  - intros Hkσ. eapply annotates_trans; [by eapply Hm|by eapply Hk].
  - intros [= _ <-]. by eapply Hm.
  - intros [= _ <-]. by eapply Hm.
Qed.

Lemma frames_on_bind {A B} c this (m : M A) (k : A → M B) :
  frames_on c this m → (∀ a, frames_on c this (k a)) →
  frames_on c this (m ≫= k).
Proof.
  intros Hm Hk σ r σ'' Hc. unfold mbind, M_bind, bind.
  destruct (m σ) as [[a|e|] σ'] eqn:Hmσ.
  - intros Hkσ. pose proof (Hm _ _ _ Hc Hmσ) as Hann.
    eapply annotates_trans; [done|]. eapply Hk; [|done].
    by eapply annotates_instance_of.
  - intros [= _ <-]. by eapply Hm.
  - intros [= _ <-]. by eapply Hm.
Qed.

Lemma frames_on_each_from {A} c this (f : val → nat → M A) l :
  (∀ x i, frames_on c this (f x i)) → ∀ i, frames_on c this (each_from i f l).
Proof.
  intros Hf. induction l as [|x l IH]; intros i; simpl.
  - apply frames_frames_on, pure_frames, pure_ret.
  - apply frames_on_bind; [apply Hf|]. intros y.
    apply frames_on_bind; [apply IH|]. intros ys.
    apply frames_frames_on, pure_frames, pure_ret.
Qed.

Lemma frames_on_forEach {A} c this v (f : val → nat → M A) :
  (∀ x i, frames_on c this (f x i)) → frames_on c this (forEach v f).
Proof.
  intros Hf. apply frames_on_bind.
  { apply frames_frames_on, pure_frames, pure_array_elems. }
  intros elems. apply frames_on_bind; [by apply frames_on_each_from|].
  intros _. apply frames_frames_on, pure_frames, pure_ret.
Qed.

(** An assignment to a property that the class may write. *)
Lemma frames_on_set c this p x :
  p ∈ writes c → frames_on c this (set this p x).
Proof.
  intros Hp σ r σ' Hc Hrun.
  apply instance_of_lookup in Hc as (l & props & -> & Hl).
  rewrite (set_instance _ _ _ _ _ _ Hl) in Hrun. injection Hrun as _ <-.
  split; [done|]. split; [done|]. simpl. intros l' o Hl'.
  destruct (decide (l' = l)) as [->|Hne].
  - rewrite list_lookup_insert_eq by (by eapply lookup_lt_Some).
    eexists. split; [done|]. rewrite Hl in Hl'. injection Hl' as <-.
    simpl. split; [done|]. intros q Hq.
    rewrite lookup_insert_ne; [done|]. by intros ->.
  - rewrite list_lookup_insert_ne by done. exists o.
    split; [done|]. apply same_syntax_refl.
Qed.

Lemma frames_alloc o : frames (alloc o).
Proof.
  intros σ r σ' [= _ <-]. split; [done|]. split; [done|]. simpl.
  intros l o' Hl. exists o'. split; [|apply same_syntax_refl].
  by apply lookup_app_l_Some.
Qed.

Lemma pure_receiver method context : pure (Context.receiver method context).
Proof.
  intros σ. destruct context; simpl; try done. by destruct (obj_at (heap σ) l).
Qed.

Lemma receiver_Ok method context σ l x σ' :
  Context.receiver method context σ = (Ok (l, x), σ') →
  ∃ parent kind owner valueMap,
    x = (parent, kind, owner, valueMap) ∧ σ' = σ ∧
    heap σ !! l = Some (OContext parent kind owner valueMap).
Proof.
  unfold Context.receiver. destruct context; try discriminate.
  unfold obj_at. destruct (heap σ !! l0) as [[| |parent kind owner valueMap|]|] eqn:Hl;
    simpl; try discriminate.
  intros [= <- <- <-]. eauto 10.
Qed.

Lemma frames_Context_add `{Host} context decl : frames (Context.add context decl).
Proof.
  intros σ r σ'. unfold Context.add.
  unfold mbind at 1, M_bind at 1, bind at 1.
  destruct (Context.receiver "add" context σ) as [[[l x]|e|] σ1] eqn:Hrec.
  2,3: pose proof (pure_receiver "add" context σ) as Hp; rewrite Hrec in Hp;
       simpl in Hp; subst σ1; intros [= _ <-]; apply annotates_refl.
  apply receiver_Ok in Hrec as (parent & kind & owner & valueMap & -> & -> & Hl).
  unfold mbind, M_bind, bind.
  destruct (get_cases decl "id" σ) as [[name Hname]|[m Hname]]; rewrite Hname;
    [|intros [= _ <-]; apply annotates_refl].
  unfold str, get_state, mbind, M_bind, bind, mret, M_ret, ret. simpl.
  destruct (valueMap !! name) eqn:Hbound.
  - intros [= _ <-]. apply annotates_refl.
  - unfold put_state. intros [= _ <-].
    split; [done|]. split; [done|]. simpl. intros l' o Hl'.
    destruct (decide (l' = l)) as [->|Hne].
    + rewrite list_lookup_insert_eq by (by eapply lookup_lt_Some).
      eexists. split; [done|]. rewrite Hl in Hl'. injection Hl' as <-.
      simpl. repeat split; try done. by apply insert_subseteq.
    + rewrite list_lookup_insert_ne by done. exists o.
      split; [done|]. apply same_syntax_refl.
Qed.

Lemma pure_lookupValue `{Host} context name : pure (Context.lookupValue context name).
Proof.
  unfold Context.lookupValue.
  apply pure_bind; [apply pure_receiver|]. intros _.
  apply pure_bind; [apply pure_get_state|]. intros σ.
  apply pure_bind; [apply pure_str|]. intros n.
  destruct (Context.lookup_chain _ _ _ _); [apply pure_ret|apply pure_throw].
Qed.

Lemma frames_createChild method kind context owner :
  frames (Context.createChild method kind context owner).
Proof.
  unfold Context.createChild. apply frames_bind.
  - apply pure_frames, pure_receiver.
  - intros _. apply frames_alloc.
Qed.

Create HintDb frames.

Global Hint Resolve pure_frames frames_alloc frames_Context_add
  frames_createChild pure_lookupValue pure_check pure_get pure_get_index
  pure_ret pure_throw pure_instanceof pure_str : frames.

Ltac frames_tac :=
  repeat first
    [ apply frames_on_forEach; intros ? ?
    | apply frames_on_set; simpl; solve [repeat constructor]
    | apply frames_frames_on; solve [auto with frames]
    | apply frames_on_bind; [|intros ?]
    | match goal with |- frames_on _ _ (if ?c then _ else _) => destruct c end ].

(** Each method keeps the store up to the properties its class may write,
    provided the calls [x.analyze(context)] it makes do. *)
Lemma frames_analyze_method `{Host} an c m :
  (∀ x context, frames (an x context)) →
  analyze_method an c = Some m →
  ∀ this context, frames_on c this (m this context).
Proof.
  intros Han Hm this context.
  assert (∀ c' this' x context', frames_on c' this' (an x context')) as Han'.
  { intros. apply frames_frames_on, Han. }
  destruct c; simpl in Hm; try discriminate; injection Hm as <-.
  - unfold ArrayExpression_analyze. frames_tac.
  - unfold ArrayType_analyze. frames_tac.
  - unfold AssignmentStatement_analyze. frames_tac.
  - unfold BinaryExpression_analyze. frames_tac.
  - unfold CallExpression_analyze. frames_tac.
  - unfold Field_analyze. frames_tac.
  - unfold ForStatement_analyze, Context.createChildContextForLoop. frames_tac.
  - unfold Func_analyze, Func_analyzeSignature,
      Context.createChildContextForFunctionBody. frames_tac.
  - unfold GifStatement_analyze. frames_tac.
  - unfold IdExp_analyze. frames_tac.
  - unfold Literal_analyze. frames_tac.
  - unfold MemberExpression_analyze, new_IdExp. frames_tac.
  - unfold Method_analyze, Method_analyzeSignature,
      Context.createChildContextForFunctionBody. frames_tac.
  - unfold ObjectExp_analyze, Context.createChildContextForObject. frames_tac.
  - unfold Parameter_analyze. frames_tac.
  - unfold ReturnStatement_analyze. frames_tac.
  - unfold ThrowStatement_analyze. frames_tac.
  - unfold VariableDeclaration_analyze. frames_tac.
  - unfold WhileStatement_analyze, Context.createChildContextForLoop. frames_tac.
Qed.

Lemma method_of_Ok {A} name (methods : cls → option A) x σ m σ' :
  (∀ s, methods (HostClass s) = None) →
  method_of name methods x σ = (Ok m, σ') →
  σ' = σ ∧ ∃ c, instance_of σ x = Some c ∧ methods c = Some m.
Proof.
  intros Hhost. unfold method_of, instance_of, obj_at. destruct x; try discriminate.
  destruct (heap σ !! l) as [[c props| | |]|]; simpl; try discriminate.
  - destruct (methods c) eqn:Hc; try discriminate.
    intros [= <- <-]. eauto.
  - by rewrite Hhost.
Qed.

Lemma analyze_frames `{Host} fuel : ∀ x context, frames (analyze fuel x context).
Proof.
  induction fuel as [|fuel IH]; intros x context; simpl.
  - intros σ r σ' [= _ <-]. apply annotates_refl.
  - unfold call_analyze. intros σ r σ'. unfold mbind, M_bind, bind.
    destruct (method_of "analyze" (analyze_method (analyze fuel)) x σ)
      as [[m|e|] σ1] eqn:Hm.
    + apply method_of_Ok in Hm as (-> & c & Hc & Hm); [|done].
      intros Hrun.
      by eapply (frames_analyze_method (analyze fuel) c m IH Hm x context).
    + intros [= _ <-]. eapply pure_frames; [|done]. apply pure_method_of.
    + intros [= _ <-]. eapply pure_frames; [|done]. apply pure_method_of.
Qed.

(** X2: analysis, whatever its outcome, never touches the cache of
    generated names, never removes an object from the store, never
    changes an array or the class of an object, and on an instance of
    class [c] changes no property other than those of [writes c]: the
    tree stays as parsed, up to its annotations. *)
Theorem analysis_only_annotates `{Host} (fuel : nat) (x context : val) (σ : state) :
  annotates σ (analyze fuel x context σ).2.
Proof.
  destruct (analyze fuel x context σ) as [r σ'] eqn:Hrun.
  by eapply analyze_frames.
Qed.

Lemma get_Ok_inv v p σ a σ' :
  get v p σ = (Ok a, σ') → σ' = σ ∧ prop σ v p = Some a.
Proof.
  intros Hget. pose proof (get_state_unchanged v p σ) as Hσ.
  rewrite Hget in Hσ. simpl in Hσ. subst σ'. split; [done|].
  unfold prop. by rewrite Hget.
Qed.

Lemma pure_Ok_inv {A} (m : M A) σ a σ' : pure m → m σ = (Ok a, σ') → σ' = σ.
Proof. intros Hm Hrun. specialize (Hm σ). by rewrite Hrun in Hm. Qed.

Lemma prop_annotates σ σ' this c p :
  annotates σ σ' → instance_of σ this = Some c → p ∉ writes c →
  prop σ' this p = prop σ this p.
Proof.
  intros (_ & _ & Ho) Hc Hp.
  apply instance_of_lookup in Hc as (l & props & -> & Hl).
  destruct (Ho l _ Hl) as ([c' props'| | |] & Hl' & Hs); simpl in Hs; try done.
  destruct Hs as [<- Hs]. unfold prop, get, obj_at. rewrite Hl, Hl'. simpl.
  by rewrite (Hs p Hp).
Qed.

Ltac not_written :=
  let Hin := fresh "Hin" in
  simpl; intros Hin;
  repeat (apply elem_of_cons in Hin as [?|Hin]; [discriminate|]);
  by apply elem_of_nil in Hin.

Lemma analyze_Ok_instance `{Host} fuel x context σ σ' :
  analyze fuel x context σ = (Ok (), σ') → ∃ c, instance_of σ x = Some c.
Proof.
  destruct fuel as [|fuel]; [discriminate|]. simpl. unfold call_analyze.
  intros Hrun. apply bind_Ok_inv in Hrun as (m & σ1 & Hm & _).
  apply method_of_Ok in Hm as (_ & c & Hc & _); eauto.
Qed.

Lemma ToString_VStr `{Host} h s : ToString h (VStr s) = s.
Proof. unfold ToString. by destruct (length h). Qed.

(** ** Array expressions *)

(** X3: the analysis of an array expression never completes, whatever the
    node, the context, the state and the fuel: [this.type.analyze()] needs
    [this.type] to be an object with an [analyze] method, and the
    [check.isArray(this)] that follows needs it to be the class
    [ArrayType] itself. *)
Theorem ArrayExpression_analysis_never_completes `{Host}
    (fuel : nat) (this context : val) (σ : state) :
  instance_of σ this = Some ArrayExpression →
  ¬ is_ok (analyze fuel this context σ).
Proof.
  intros Hc Hok. destruct fuel as [|fuel]; [done|].
  erewrite analyze_instance in Hok by (exact Hc || reflexivity).
  unfold ArrayExpression_analyze in Hok.
  apply bind_ok_inv in Hok as (t & σ0 & Ht & Hok).
  apply get_Ok_inv in Ht as [-> Ht].
  apply bind_ok_inv in Hok as ([] & σ1 & Hrun & Hok).
  pose proof (analyze_frames fuel t VUndefined σ _ σ1 Hrun) as Hann.
  apply analyze_Ok_instance in Hrun as [c Hct].
  apply bind_ok_inv in Hok as ([] & σ2 & Hcheck & _).
  assert (prop σ1 this "type" = Some t) as Ht1.
  { rewrite (prop_annotates σ σ1 this ArrayExpression "type" Hann Hc); [done|].
    not_written. }
  change (check "isArray" [this] σ1) with (isArray this σ1) in Hcheck.
  rewrite (isArray_raises σ1 this t) in Hcheck; [done|done|].
  intros ->. done.
Qed.

Lemma ArrayExpression_analysis_never_completes_witness :
  instance_of (store array_decl) (VRef 6) = Some ArrayExpression ∧
  ¬ is_ok (@analyze plain_host 5 (VRef 6) (VRef 0) (store array_decl)).
Proof.
  split; [reflexivity|].
  by apply (@ArrayExpression_analysis_never_completes plain_host 5 (VRef 6) (VRef 0)
              (store array_decl)).
Defined.

(** ** Binary expressions *)

Global Hint Resolve pure_check pure_lookupValue : pure.

Lemma set_Ok_prop σ this c p x r σ' :
  instance_of σ this = Some c → set this p x σ = (r, σ') →
  r = Ok () ∧ prop σ' this p = Some x.
Proof.
  intros Hc Hset. apply instance_of_lookup in Hc as (l & props & -> & Hl).
  rewrite (set_instance _ _ _ _ _ _ Hl) in Hset. injection Hset as <- <-.
  split; [done|]. by apply prop_set_instance.
Qed.

Lemma str_Ok_inv `{Host} v σ s σ' :
  str v σ = (Ok s, σ') → σ' = σ ∧ s = ToString (heap σ) v.
Proof. unfold str. by intros [= <- <-]. Qed.

Lemma str_Ok `{Host} v σ : str v σ = (Ok (ToString (heap σ) v), σ).
Proof. done. Qed.

Ltac pure_step H :=
  let a := fresh "a" in
  let σ := fresh "σ" in
  let Hstep := fresh "Hstep" in
  apply bind_Ok_inv in H as (a & σ & Hstep & H);
  apply pure_Ok_inv in Hstep as ->; [|solve [pure_tac]].

(** The operands analysed, the operator is still the one the node had. *)
Lemma BinaryExpression_analyze_Ok `{Host} fuel this context σ σ' op :
  instance_of σ this = Some BinaryExpression →
  prop σ this "op" = Some (VStr op) →
  analyze (S fuel) this context σ = (Ok (), σ') →
  (re_arith op = true ∧
   (prop σ' this "type" = Some (VBuiltin FloatType) ∨
    prop σ' this "type" = Some (VBuiltin IntType))) ∨
  (re_arith op = false ∧ re_rel op = true ∧
   prop σ' this "type" = Some (VBuiltin BoolType)) ∨
  (re_arith op = false ∧ re_rel op = false ∧ re_logic op = false ∧
   re_eq op = true ∧ prop σ' this "type" = Some (VBuiltin BoolType)) ∨
  (re_arith op = false ∧ re_rel op = false ∧ re_logic op = false ∧
   re_eq op = false).
Proof.
  intros Hc Hop Hrun.
  erewrite analyze_instance in Hrun by (exact Hc || reflexivity).
  unfold BinaryExpression_analyze in Hrun.
  apply bind_Ok_inv in Hrun as (l & σ0 & Hl & Hrun).
  apply get_Ok_inv in Hl as [-> _].
  apply bind_Ok_inv in Hrun as ([] & σa & Hla & Hrun).
  apply analyze_frames in Hla.
  apply bind_Ok_inv in Hrun as (r & σ0 & Hr & Hrun).
  apply get_Ok_inv in Hr as [-> _].
  apply bind_Ok_inv in Hrun as ([] & σb & Hrb & Hrun).
  apply analyze_frames in Hrb.
  pose proof (annotates_trans _ _ _ Hla Hrb) as Hann.
  pose proof (annotates_instance_of _ _ _ _ Hann Hc) as Hcb.
  apply bind_Ok_inv in Hrun as (o & σ0 & Ho & Hrun).
  apply get_Ok_inv in Ho as [-> Ho].
  rewrite (prop_annotates σ σb this BinaryExpression "op" Hann Hc) in Ho
    by not_written.
  rewrite Hop in Ho. injection Ho as <-.
  apply bind_Ok_inv in Hrun as (s & σ0 & Hs & Hrun).
  apply str_Ok_inv in Hs as [-> ->]. rewrite ToString_VStr in Hrun.
  destruct (re_arith op) eqn:Harith; [left|right].
  { split; [done|]. do 6 pure_step Hrun. pure_step Hrun.
    destruct a5; apply (set_Ok_prop _ _ _ _ _ _ _ Hcb) in Hrun as [_ Hrun]; auto. }
  destruct (re_rel op) eqn:Hrel; [left|right].
  { split; [done|]. split; [done|]. do 4 pure_step Hrun.
    by apply (set_Ok_prop _ _ _ _ _ _ _ Hcb) in Hrun as [_ Hrun]. }
  destruct (re_logic op) eqn:Hlogic.
  { pure_step Hrun. rewrite check_isBoolean in Hrun.
    apply bind_Ok_inv in Hrun as (? & ? & Hcheck & _). discriminate. }
  destruct (re_eq op) eqn:Heq; [left|right]; [|done].
  repeat (split; [done|]). do 3 pure_step Hrun.
  by apply (set_Ok_prop _ _ _ _ _ _ _ Hcb) in Hrun as [_ Hrun].
Qed.

(** X4: when the analysis of a binary expression completes, the type it
    has attached follows the first pattern that the operator matches: Float
    or Int for an operator containing one of [-+*/]; otherwise Bool for one
    containing [<] or [>]; otherwise, for one that contains neither [||] nor
    [&&] and starts with [!] or [=], Bool. *)
Theorem BinaryExpression_result_type `{Host} (fuel : nat) (this context : val)
    (σ σ' : state) (op : string) :
  instance_of σ this = Some BinaryExpression →
  prop σ this "op" = Some (VStr op) →
  analyze (S fuel) this context σ = (Ok (), σ') →
  (re_arith op = true →
   prop σ' this "type" = Some (VBuiltin FloatType) ∨
   prop σ' this "type" = Some (VBuiltin IntType)) ∧
  (re_arith op = false → re_rel op = true →
   prop σ' this "type" = Some (VBuiltin BoolType)) ∧
  (re_arith op = false → re_rel op = false → re_logic op = false →
   re_eq op = true → prop σ' this "type" = Some (VBuiltin BoolType)).
Proof.
  intros Hc Hop Hrun.
  destruct (BinaryExpression_analyze_Ok fuel this context σ σ' op Hc Hop Hrun)
    as [(Ha & Ht)|[(Ha & Hr & Ht)|[(Ha & Hr & Hl & He & Ht)|(Ha & Hr & Hl & He)]]];
    repeat split; intros; congruence.
Qed.

Lemma BinaryExpression_result_type_witness :
  instance_of (store (binary "+" "whole_number" "1" "not_whole_number" "2"))
    (VRef 3) = Some BinaryExpression ∧
  prop (store (binary "+" "whole_number" "1" "not_whole_number" "2"))
    (VRef 3) "op" = Some (VStr "+") ∧
  prop (@analyze plain_host 2 (VRef 3) (VRef 0)
          (store (binary "+" "whole_number" "1" "not_whole_number" "2"))).2
    (VRef 3) "type" = Some (VBuiltin FloatType).
Proof.
  split; [reflexivity|]. split; [reflexivity|].
  destruct (@BinaryExpression_result_type plain_host 1 (VRef 3) (VRef 0)
              (store (binary "+" "whole_number" "1" "not_whole_number" "2"))
              (@analyze plain_host 2 (VRef 3) (VRef 0)
                 (store (binary "+" "whole_number" "1" "not_whole_number" "2"))).2
              "+") as [Harith _]; [reflexivity..|].
  destruct (Harith eq_refl) as [Ht|Ht]; [exact Ht|].
  vm_compute in Ht. discriminate.
Defined.

(** X5: no binary expression whose operator contains [||] or [&&], and
    none of [-+*/<>], ever passes analysis, whatever its operands. *)
Theorem logical_operators_never_accepted `{Host} (fuel : nat) (this context : val)
    (σ : state) (op : string) :
  instance_of σ this = Some BinaryExpression →
  prop σ this "op" = Some (VStr op) →
  re_arith op = false → re_rel op = false → re_logic op = true →
  ¬ is_ok (analyze fuel this context σ).
Proof.
  intros Hc Hop Ha Hr Hl Hok. destruct fuel as [|fuel]; [done|].
  unfold is_ok in Hok.
  destruct (analyze (S fuel) this context σ) as [[[]|e|] σ'] eqn:Hrun; try done.
  destruct (BinaryExpression_analyze_Ok fuel this context σ σ' op Hc Hop Hrun)
    as [(? & _)|[(_ & ? & _)|[(_ & _ & ? & _)|(_ & _ & ? & _)]]]; congruence.
Qed.

Lemma logical_operators_never_accepted_witness :
  instance_of (store (binary "&&" "true_or_false" "true" "true_or_false" "false"))
    (VRef 3) = Some BinaryExpression ∧
  ¬ is_ok (@analyze plain_host 3 (VRef 3) (VRef 0)
             (store (binary "&&" "true_or_false" "true" "true_or_false" "false"))).
Proof.
  split; [reflexivity|].
  by apply (@logical_operators_never_accepted plain_host 3 (VRef 3) (VRef 0)
              (store (binary "&&" "true_or_false" "true" "true_or_false" "false"))
              "&&").
Defined.

Lemma bind_ext_Ok {A B} (m : M A) (k1 k2 : A → M B) σ :
  (∀ a σ', m σ = (Ok a, σ') → k1 a σ' = k2 a σ') →
  (m ≫= k1) σ = (m ≫= k2) σ.
Proof.
  intros Hk. unfold mbind, M_bind, bind.
  destruct (m σ) as [[a|e|] σ']; auto.
Qed.

Lemma bind_skip {A} (m : M A) (k : A → M A) σ :
  (∀ a σ', m σ = (Ok a, σ') → k a σ' = (Ok a, σ')) →
  (m ≫= k) σ = m σ.
Proof.
  intros Hk. unfold mbind, M_bind, bind.
  destruct (m σ) as [[a|e|] σ'] eqn:Hm; auto.
Qed.

(** X6: on an operator that matches none of the four patterns ([%], [&],
    [|], ...) the analysis of a binary expression is the analysis of its
    two operands and nothing else: no check is made and no type is
    attached. *)
Theorem unmatched_operator_unchecked `{Host} (fuel : nat) (this context : val)
    (σ : state) (op : string) :
  instance_of σ this = Some BinaryExpression →
  prop σ this "op" = Some (VStr op) →
  re_arith op = false → re_rel op = false → re_logic op = false →
  re_eq op = false →
  analyze (S fuel) this context σ =
    (left ← get this "left"; analyze fuel left context;;
     right ← get this "right"; analyze fuel right context) σ.
Proof.
  intros Hc Hop Ha Hr Hl He.
  erewrite analyze_instance by (exact Hc || reflexivity).
  unfold BinaryExpression_analyze.
  apply bind_ext_Ok. intros l σ0 Hget. apply get_Ok_inv in Hget as [-> _].
  apply bind_ext_Ok. intros [] σa Hla. apply analyze_frames in Hla.
  apply bind_ext_Ok. intros r σ0 Hget. apply get_Ok_inv in Hget as [-> _].
  apply bind_skip. intros [] σb Hrb. apply analyze_frames in Hrb.
  pose proof (annotates_trans _ _ _ Hla Hrb) as Hann.
  assert (get this "op" σb = (Ok (VStr op), σb)) as Hgetop.
  { apply get_prop.
    by rewrite (prop_annotates σ σb this BinaryExpression "op" Hann Hc)
      by not_written. }
  rewrite (bind_Ok _ _ _ _ _ Hgetop).
  unfold str at 1. unfold get_state, mbind at 1, M_bind at 1, bind at 1.
  unfold mbind at 1, M_bind at 1, bind at 1, mret at 1, M_ret at 1, ret at 1.
  rewrite ToString_VStr. by rewrite Ha, Hr, Hl, He.
Qed.

Lemma unmatched_operator_unchecked_witness :
  instance_of (store (binary "&" "true_or_false" "true" "whole_number" "1"))
    (VRef 3) = Some BinaryExpression ∧
  (@analyze plain_host 2 (VRef 3) (VRef 0)
     (store (binary "&" "true_or_false" "true" "whole_number" "1"))).1 = Ok () ∧
  prop (@analyze plain_host 2 (VRef 3) (VRef 0)
          (store (binary "&" "true_or_false" "true" "whole_number" "1"))).2
    (VRef 3) "type" = Some VUndefined.
Proof.
  split; [reflexivity|].
  rewrite (@unmatched_operator_unchecked plain_host 1 (VRef 3) (VRef 0)
             (store (binary "&" "true_or_false" "true" "whole_number" "1")) "&")
    by reflexivity.
  split; reflexivity.
Defined.

(** ** Arguments of calls *)

Lemma each_from_is_ok {A} (f : val → nat → M A) l :
  (∀ x i, pure (f x i)) →
  ∀ i σ, is_ok (each_from i f l σ) ↔
         ∀ j x, l !! j = Some x → is_ok (f x (i + j)%nat σ).
Proof.
  intros Hf. induction l as [|x l IH]; intros i σ; simpl.
  - split; [by intros _ j y|]. intros _. by unfold is_ok.
  - split.
    + intros Hok. apply bind_ok_inv in Hok as (y & σ1 & Hx & Hok).
      pose proof (pure_Ok_inv _ _ _ _ (Hf x i) Hx) as ->.
      apply bind_ok_inv in Hok as (ys & σ2 & Hl & _).
      assert (is_ok (each_from (S i) f l σ)) as Hl' by (unfold is_ok; by rewrite Hl).
      intros [|j] z Hz; simpl in Hz.
      * injection Hz as <-. rewrite Nat.add_0_r. unfold is_ok. by rewrite Hx.
      * replace (i + S j)%nat with (S i + j)%nat by lia. by apply (IH (S i) σ).
    + intros Hall.
      pose proof (Hall 0%nat x eq_refl) as Hx. rewrite Nat.add_0_r in Hx.
      unfold is_ok in Hx. destruct (f x i σ) as [[y|e|] σ1] eqn:Hfx; try done.
      pose proof (pure_Ok_inv _ _ _ _ (Hf x i) Hfx) as ->.
      rewrite (bind_Ok _ _ _ _ _ Hfx).
      assert (is_ok (each_from (S i) f l σ)) as Hl.
      { apply IH. intros j z Hz.
        replace (S i + j)%nat with (i + S j)%nat by lia. by apply Hall. }
      unfold is_ok in Hl.
      destruct (each_from (S i) f l σ) as [[ys|e|] σ2] eqn:Hfl; try done.
      by rewrite (bind_Ok _ _ _ _ _ Hfl).
Qed.

Lemma passes_is_ok (r : outcome unit * state) : passes r ↔ is_ok r.
Proof.
  unfold passes, is_ok. destruct r as [[[]|e|] σ]; simpl; split; try done.
Qed.

(** X7: for an array of arguments and an array of parameters,
    [legalArguments] passes exactly when the two have the same length and
    each argument is assignable to the [type] of the parameter at its
    position; with no argument and no parameter it passes. *)
Theorem legalArguments_passes `{Host} (σ : state) (la lp : nat) (args params : list val) :
  heap σ !! la = Some (OArray args) →
  heap σ !! lp = Some (OArray params) →
  passes (legalArguments (VRef la) (VRef lp) σ) ↔
    length args = length params ∧
    ∀ i a, args !! i = Some a →
      ∃ p t, params !! i = Some p ∧ prop σ p "type" = Some t ∧
             passes (isAssignableTo a t σ).
Proof.
  intros Hla Hlp. rewrite passes_is_ok. unfold legalArguments.
  assert (get (VRef la) "length" σ = (Ok (VNum (Z.of_nat (length args))), σ)) as Hna.
  { unfold get, obj_at. by rewrite Hla. }
  assert (get (VRef lp) "length" σ = (Ok (VNum (Z.of_nat (length params))), σ)) as Hnp.
  { unfold get, obj_at. by rewrite Hlp. }
  rewrite (bind_Ok _ _ _ _ _ Hna), (bind_Ok _ _ _ _ _ Hnp).
  rewrite (bind_Ok _ _ _ _ _ (str_Ok _ σ)), (bind_Ok _ _ _ _ _ (str_Ok _ σ)).
  unfold strict_eq. case_bool_decide as Hlen.
  - assert (length args = length params) as Hlen' by (injection Hlen; lia).
    rewrite (bind_Ok _ _ _ () σ) by done.
    unfold forEach.
    assert (array_elems "forEach" (VRef la) σ = (Ok args, σ)) as Helems.
    { unfold array_elems, obj_at. by rewrite Hla. }
    rewrite (bind_Ok _ _ _ _ _ Helems).
    set (f := λ (a : val) (i : nat),
           get_index (VRef lp) i ≫= λ p, get p "type" ≫= λ t, isAssignableTo a t).
    assert (∀ x i, pure (f x i)) as Hpure.
    { intros x i. unfold f, isAssignableTo. pure_tac. }
    transitivity (is_ok (each_from 0 f args σ)).
    { split.
      - intros Hok. apply bind_ok_inv in Hok as (ys & σ1 & Hrun & _).
        unfold is_ok. by rewrite Hrun.
      - unfold is_ok. destruct (each_from 0 f args σ) as [[ys|e|] σ1] eqn:Hrun; try done.
        by rewrite (bind_Ok _ _ _ _ _ Hrun). }
    rewrite (each_from_is_ok f args Hpure 0 σ). split.
    + intros Hall. split; [done|]. intros i a Hi.
      specialize (Hall i a Hi). simpl in Hall. unfold f in Hall.
      apply bind_ok_inv in Hall as (p & σ1 & Hp & Hall).
      apply bind_ok_inv in Hall as (t & σ2 & Ht & Hall).
      pose proof (pure_Ok_inv _ _ _ _ (pure_get_index _ _) Hp) as ->.
      apply get_Ok_inv in Ht as [-> Ht].
      unfold get_index, obj_at in Hp. rewrite Hlp in Hp. simpl in Hp.
      injection Hp as <-.
      destruct (params !! i) as [p|] eqn:Hpi.
      * exists p, t. by rewrite passes_is_ok.
      * apply lookup_lt_Some in Hi. apply lookup_ge_None in Hpi. lia.
    + intros [_ Hall] i a Hi. simpl.
      destruct (Hall i a Hi) as (p & t & Hp & Ht & Hpass).
      unfold f.
      assert (get_index (VRef lp) i σ = (Ok p, σ)) as Hgi.
      { unfold get_index, obj_at. rewrite Hlp. simpl. by rewrite Hp. }
      rewrite (bind_Ok _ _ _ _ _ Hgi), (bind_Ok _ _ _ _ _ (get_prop _ _ _ _ Ht)).
      by rewrite <- passes_is_ok.
  - erewrite bind_Throw by done.
    split; [done|]. intros [Hlen' _]. by rewrite Hlen' in Hlen.
Qed.

Lemma legalArguments_passes_witness :
  passes (@legalArguments plain_host (VRef 2) (VRef 2) (store while_true)).
Proof.
  apply (@legalArguments_passes plain_host (store while_true) 2 2 [] []);
    [reflexivity..|].
  split; [done|]. by intros i a.
Defined.

(** X8: when the numbers of arguments and of parameters differ,
    [legalArguments] raises "Expected n args in call, got m" with the two
    lengths, before any argument is looked at. *)
Theorem legalArguments_arity `{Host} (σ : state) (la lp : nat) (args params : list val) :
  heap σ !! la = Some (OArray args) →
  heap σ !! lp = Some (OArray params) →
  length args ≠ length params →
  legalArguments (VRef la) (VRef lp) σ =
    (Throw (Error ("Expected " +:+ pretty (Z.of_nat (length params)) +:+
                   " args in call, got " +:+ pretty (Z.of_nat (length args)))), σ).
Proof.
  intros Hla Hlp Hlen. unfold legalArguments.
  assert (get (VRef la) "length" σ = (Ok (VNum (Z.of_nat (length args))), σ)) as Hna.
  { unfold get, obj_at. by rewrite Hla. }
  assert (get (VRef lp) "length" σ = (Ok (VNum (Z.of_nat (length params))), σ)) as Hnp.
  { unfold get, obj_at. by rewrite Hlp. }
  rewrite (bind_Ok _ _ _ _ _ Hna), (bind_Ok _ _ _ _ _ Hnp).
  rewrite (bind_Ok _ _ _ _ _ (str_Ok _ σ)), (bind_Ok _ _ _ _ _ (str_Ok _ σ)).
  rewrite !ToString_VNum. unfold strict_eq.
  rewrite bool_decide_eq_false_2 by (intros [= Heq]; lia).
  by erewrite bind_Throw.
Qed.

Lemma legalArguments_arity_witness :
  (@legalArguments plain_host (VRef 3) (VRef 8) (store for_true)).1
    = Throw (Error "Expected 0 args in call, got 1").
Proof.
  by rewrite (@legalArguments_arity plain_host (store for_true) 3 8 [VRef 2] []).
Defined.

(** ** Relations between the checks *)

(** X9: [expressionsHaveTheSameType] is symmetric: it passes on [e1] and
    [e2] exactly when it passes on [e2] and [e1]. *)
Theorem expressionsHaveTheSameType_symmetric (σ : state) (e1 e2 : val) :
  passes (expressionsHaveTheSameType e1 e2 σ) ↔
  passes (expressionsHaveTheSameType e2 e1 σ).
Proof.
  unfold passes, expressionsHaveTheSameType, strict_eq, doCheck.
  unfold mbind, M_bind, bind, mret, M_ret, ret, throw.
  destruct (get_cases e1 "type" σ) as [[t1 H1]|[m1 H1]];
    destruct (get_cases e2 "type" σ) as [[t2 H2]|[m2 H2]];
    rewrite ?H1, ?H2; simpl; rewrite ?H1, ?H2; simpl; try done.
  destruct (decide (t1 = t2)) as [->|Hne]; [reflexivity|].
  rewrite !bool_decide_eq_false_2 by congruence. reflexivity.
Qed.

Lemma expressionsHaveTheSameType_symmetric_witness :
  passes (expressionsHaveTheSameType (VRef 1) (VRef 2)
            (store (binary "+" "whole_number" "1" "whole_number" "2"))) ∧
  passes (expressionsHaveTheSameType (VRef 2) (VRef 1)
            (store (binary "+" "whole_number" "1" "whole_number" "2"))).
Proof.
  split; [reflexivity|].
  apply (expressionsHaveTheSameType_symmetric
           (store (binary "+" "whole_number" "1" "whole_number" "2")) (VRef 1) (VRef 2)).
  reflexivity.
Defined.

(** X10: whenever a member of check.js other than [isArray] raises an
    [Error], its message is not empty. *)
Theorem check_messages_not_empty `{Host} (name : string) (f : list val → M unit)
    (args : list val) (σ σ' : state) (message : string) :
  (name, f) ∈ check_exports → name ≠ "isArray" →
  f args σ = (Throw (Error message), σ') →
  message ≠ EmptyString.
Proof.
  intros Hin Hname Hrun.
  by apply (checks_name_their_rule name f args Hin Hname σ (Error message) σ').
Qed.

Lemma check_messages_not_empty_witness :
  ("isInteger", λ a, isInteger (arg a 0)) ∈ @check_exports plain_host ∧
  isInteger (arg [VRef 1] 0) (store while_true)
    = (Throw (Error "Not an integer"), store while_true) ∧
  "Not an integer" ≠ EmptyString.
Proof.
  assert (("isInteger", λ a, isInteger (arg a 0)) ∈ @check_exports plain_host) as Hin.
  { unfold check_exports. do 2 apply list_elem_of_further. apply list_elem_of_here. }
  split; [exact Hin|]. split; [reflexivity|].
  apply (@check_messages_not_empty plain_host "isInteger" (λ a, isInteger (arg a 0))
           [VRef 1] (store while_true) (store while_true)); [exact Hin|done|reflexivity].
Defined.

(** ** Loops and conditionals, on every input *)

(** X11: no [while] and no [for] statement ever passes analysis, whatever
    its test, its body, the context and the fuel. *)
Theorem loops_never_pass_analysis `{Host} (fuel : nat) (this context : val) (σ : state) :
  instance_of σ this = Some WhileStatement ∨
  instance_of σ this = Some ForStatement →
  ¬ is_ok (analyze fuel this context σ).
Proof. apply analyze_loop_not_ok. Qed.

Lemma loops_never_pass_analysis_witness :
  instance_of (store for_true) (VRef 9) = Some ForStatement ∧
  ¬ is_ok (@analyze plain_host 7 (VRef 9) (VRef 0) (store for_true)).
Proof.
  split; [reflexivity|].
  apply (@loops_never_pass_analysis plain_host 7 (VRef 9) (VRef 0) (store for_true)).
  by right.
Defined.

(** X12: generation from an [if] or a [for] statement never returns,
    whatever the node, the state and the fuel. *)
Theorem conditional_and_for_never_generate `{Host} (fuel : nat) (this : val) (σ : state) :
  instance_of σ this = Some GifStatement ∨
  instance_of σ this = Some ForStatement →
  ¬ is_ok (gen fuel this σ).
Proof. apply gen_conditional_or_for_not_ok. Qed.

Lemma conditional_and_for_never_generate_witness :
  instance_of (store gif_true) (VRef 5) = Some GifStatement ∧
  ¬ is_ok (@gen plain_host 7 (VRef 5) (store gif_true)).
Proof.
  split; [reflexivity|].
  apply (@conditional_and_for_never_generate plain_host 7 (VRef 5) (store gif_true)).
  by left.
Defined.

(** ** The generator and the state *)

(** X13: generation, whatever its outcome, leaves every object of the
    store as it is; it only adds entries to the cache of [javaScriptId],
    and a well-formed cache stays well-formed. *)
Theorem generation_keeps_the_store `{Host} (fuel : nat) (x : val) (σ : state) :
  extends σ (gen fuel x σ).2.
Proof.
  destruct (gen fuel x σ) as [r σ'] eqn:Hrun. by eapply gen_extends.
Qed.

(** The first call on an object. *)
Lemma javaScriptId_fresh `{Host} v σ :
  map σ !! v = None →
  javaScriptId v σ =
    (match prop σ v "id" with
     | Some i => Ok (VStr (ToString (heap σ) i +:+ "_" +:+ pretty (lastId σ + 1)))
     | None => (get v "id" σ).1
     end,
     State (heap σ) (lastId σ + 1) (<[v := lastId σ + 1]> (map σ))).
Proof.
  intros Hv. unfold javaScriptId.
  unfold mbind at 1, M_bind at 1, bind at 1, get_state.
  rewrite bool_decide_eq_false_2 by (rewrite Hv; by intros [? ?]).
  unfold mbind at 1, M_bind at 1, bind at 1, put_state.
  set (σ1 := State _ _ _).
  pose proof (get_heap v "id" σ1 σ eq_refl) as Hget.
  pose proof (get_state_unchanged v "id" σ1) as Hσ1.
  unfold prop. destruct (get v "id" σ1) as [r σ2] eqn:Hrun.
  simpl in Hget, Hσ1. subst σ2 r.
  unfold mbind at 1, M_bind at 1, bind at 1. rewrite Hrun.
  destruct (get v "id" σ).1 as [i|e|]; try done.
  rewrite (bind_Ok _ _ _ _ _ (str_Ok _ σ1)).
  unfold get_state, mbind, M_bind, bind, mret, M_ret, ret. simpl.
  rewrite lookup_insert_eq. simpl. by rewrite ToString_VNum.
Qed.

(** A later call on an object. *)
Lemma javaScriptId_cached `{Host} v σ n :
  map σ !! v = Some n →
  javaScriptId v σ =
    (match prop σ v "id" with
     | Some i => Ok (VStr (ToString (heap σ) i +:+ "_" +:+ pretty n))
     | None => (get v "id" σ).1
     end, σ).
Proof.
  intros Hv. unfold javaScriptId.
  unfold mbind at 1, M_bind at 1, bind at 1, get_state.
  rewrite bool_decide_eq_true_2 by (by rewrite Hv).
  unfold mbind at 1, M_bind at 1, bind at 1, mret at 1, M_ret at 1, ret at 1.
  pose proof (get_state_unchanged v "id" σ) as Hσ.
  unfold prop. destruct (get v "id" σ) as [r σ2] eqn:Hrun.
  simpl in Hσ. subst σ2.
  unfold mbind at 1, M_bind at 1, bind at 1. rewrite Hrun. simpl.
  destruct r as [i|e|]; try done.
  rewrite (bind_Ok _ _ _ _ _ (str_Ok _ σ)).
  unfold get_state, mbind, M_bind, bind, mret, M_ret, ret. simpl.
  rewrite Hv. simpl. by rewrite ToString_VNum.
Qed.

(** X14: calls on distinct objects that are not yet in the cache give
    consecutive suffixes in the order of the calls: the call at position
    [j] returns the text of the object's [id], an underscore and
    [lastId + j + 1]. *)
Theorem javaScriptId_numbers_in_order `{Host} (vs : list val) :
  ∀ (σ σ' : state) (outs : list val) (j : nat) (v : val) (t : string),
  NoDup vs → (∀ w, w ∈ vs → map σ !! w = None) →
  render vs σ = (Ok outs, σ') →
  vs !! j = Some v → id_text σ v = Some t →
  outs !! j = Some (VStr (t +:+ "_" +:+ pretty (lastId σ + Z.of_nat j + 1))).
Proof.
  unfold render. generalize 0%nat as i.
  induction vs as [|w vs IH]; intros i σ σ' outs j v t Hnd Hfresh Hrun Hj Ht;
    [done|].
  simpl in Hrun.
  apply bind_Ok_inv in Hrun as (o & σ1 & Hw & Hrun).
  apply bind_Ok_inv in Hrun as (os & σ2 & Hvs & Hrun).
  unfold mret, M_ret, ret in Hrun. injection Hrun as <- <-.
  rewrite javaScriptId_fresh in Hw by (apply Hfresh; left).
  injection Hw as Ho <-.
  pose proof (NoDup_cons_1_1 _ _ Hnd) as Hw. apply NoDup_cons_1_2 in Hnd.
  destruct j as [|j]; simpl in *.
  - injection Hj as ->. unfold id_text in Ht.
    destruct (prop σ v "id") as [i'|]; [|done]. simpl in Ht.
    injection Ht as <-. injection Ho as <-.
    by rewrite Z.add_0_r.
  - set (σ1 := State (heap σ) (lastId σ + 1) (<[w:=lastId σ + 1]> (map σ))) in *.
    assert (∀ u, u ∈ vs → map σ1 !! u = None) as Hfresh1.
    { intros u Hu. simpl. rewrite lookup_insert_ne; [apply Hfresh; by right|].
      by intros ->. }
    assert (id_text σ1 v = Some t) as Ht1.
    { by rewrite (id_text_heap v σ1 σ eq_refl). }
    assert (lastId σ1 + Z.of_nat j + 1 = lastId σ + Z.of_nat (S j) + 1) as Heq
      by (simpl; lia).
    by rewrite (IH (S i) σ1 σ2 os j v t Hnd Hfresh1 Hvs Hj Ht1), Heq.
Qed.

Lemma javaScriptId_numbers_in_order_witness :
  (@render plain_host [VRef 0; VRef 1] (store two_f)).1
    = Ok [VStr "f_1"; VStr "f_2"] ∧
  [VStr "f_1"; VStr "f_2"] !! 1%nat = Some (VStr "f_2").
Proof.
  split; [reflexivity|].
  apply (@javaScriptId_numbers_in_order plain_host [VRef 0; VRef 1] (store two_f)
           (@render plain_host [VRef 0; VRef 1] (store two_f)).2
           [VStr "f_1"; VStr "f_2"] 1 (VRef 1) "f").
  - apply NoDup_cons_2; [|apply NoDup_singleton].
    intros Hin. apply elem_of_cons in Hin as [?|Hin]; [discriminate|].
    by apply elem_of_nil in Hin.
  - intros w _. apply lookup_empty.
  - reflexivity.
  - reflexivity.
  - reflexivity.
Defined.

(** X15: a first call of [javaScriptId] on [undefined] or [null] raises a
    TypeError, on reading [id], after the cache has given the value a
    suffix: the failed call uses up a number. *)
Theorem javaScriptId_nullish_uses_a_number `{Host} (v : val) (σ : state) :
  v = VUndefined ∨ v = VNull →
  map σ !! v = None →
  javaScriptId v σ =
    (Throw (TypeError ("Cannot read property 'id' of " +:+ describe v)),
     State (heap σ) (lastId σ + 1) (<[v := lastId σ + 1]> (map σ))).
Proof.
  intros Hv Hfresh. rewrite javaScriptId_fresh by done.
  by destruct Hv as [-> | ->].
Qed.

Lemma javaScriptId_nullish_uses_a_number_witness :
  lastId (@javaScriptId plain_host VUndefined (store [])).2 = 1 ∧
  (@javaScriptId plain_host VUndefined (store [])).1
    = Throw (TypeError "Cannot read property 'id' of undefined").
Proof.
  rewrite (@javaScriptId_nullish_uses_a_number plain_host VUndefined (store []));
    [done|by left|apply lookup_empty].
Defined.

(** X16: in every state [generateLibraryFunctions] returns a function
    whose name is [undefined] followed by a suffix, never [print]: the
    name is made from the [id] of the string ["print"]. *)
Theorem library_stub_is_named_undefined `{Host} (σ : state) :
  ∃ n : Z, (generateLibraryFunctions σ).1
       = Ok (VStr ("function undefined_" +:+ pretty n +:+ "(s) {console.log(s);}")).
Proof.
  assert (∃ (n : Z) σ', javaScriptId (VStr "print") σ
                        = (Ok (VStr ("undefined_" +:+ pretty n)), σ'))
    as (n & σ' & Hid).
  { assert (ToString (heap σ) VUndefined = "undefined") as Hu.
    { unfold ToString. by destruct (length (heap σ)). }
    destruct (map σ !! VStr "print") as [n|] eqn:Hn.
    - rewrite (javaScriptId_cached _ _ _ Hn). simpl. rewrite Hu. eauto.
    - rewrite (javaScriptId_fresh _ _ Hn). simpl. rewrite Hu. eauto. }
  exists n. unfold generateLibraryFunctions, generateLibraryStub.
  unfold mbind, M_bind, bind. rewrite Hid.
  unfold mret, M_ret, ret, str, join, get_state. simpl.
  by rewrite !ToString_VStr.
Qed.

(** ** Texts that the generator produces *)

Lemma ToString_instance `{Host} σ v c :
  instance_of σ v = Some c → ToString (heap σ) v = "[object Object]".
Proof.
  intros Hc. apply instance_of_lookup in Hc as (l & props & -> & Hl).
  unfold ToString. destruct (length (heap σ)); simpl; unfold obj_at; by rewrite Hl.
Qed.

(** X17: from a [throw] statement whose error is an object of the tree,
    generation returns [throw Error("[object Object]")]: the error is
    converted to a string, not generated, and the state is unchanged. *)
Theorem ThrowStatement_gen_drops_the_message `{Host} (fuel : nat) (this e : val)
    (c : cls) (σ : state) :
  instance_of σ this = Some ThrowStatement →
  prop σ this "error" = Some e →
  instance_of σ e = Some c →
  gen (S fuel) this σ =
    (Ok (VStr ("throw Error(" +:+ dquote +:+ "[object Object]" +:+ dquote +:+ ")")), σ).
Proof.
  intros Hc He Hce.
  erewrite gen_instance by (exact Hc || reflexivity).
  unfold ThrowStatement_gen.
  rewrite (bind_Ok _ _ _ _ _ (get_prop _ _ _ _ He)).
  rewrite (bind_Ok _ _ _ _ _ (str_Ok _ σ)).
  by rewrite (ToString_instance σ e c Hce).
Qed.

Lemma ThrowStatement_gen_drops_the_message_witness :
  (@gen plain_host 1 (VRef 1)
     (store [literal "array_of_chars" "boom";
             ONode ThrowStatement {[ "error" := VRef 0 ]}])).1
    = Ok (VStr ("throw Error(" +:+ dquote +:+ "[object Object]" +:+ dquote +:+ ")")).
Proof.
  by rewrite (@ThrowStatement_gen_drops_the_message plain_host 0 (VRef 1) (VRef 0) Literal
                (store [literal "array_of_chars" "boom";
                        ONode ThrowStatement {[ "error" := VRef 0 ]}])).
Defined.



Lemma gen_array_not_ok `{Host} fuel l elems σ :
  heap σ !! l = Some (OArray elems) → ¬ is_ok (gen fuel (VRef l) σ).
Proof.
  intros Hl Hok. destruct fuel as [|fuel]; [done|]. simpl in Hok.
  unfold call_gen, method_of, obj_at, mbind, M_bind, bind in Hok.
  by rewrite Hl in Hok.
Qed.

(** X19: generation from an array expression whose [elements] is an
    array, which is what the analyzer iterates over, never returns: the
    method calls [gen] on the array itself. *)
Theorem ArrayExpression_gen_never_returns `{Host} (fuel : nat) (this : val)
    (l : nat) (elems : list val) (σ : state) :
  instance_of σ this = Some ArrayExpression →
  prop σ this "elements" = Some (VRef l) →
  heap σ !! l = Some (OArray elems) →
  ¬ is_ok (gen fuel this σ).
Proof.
  intros Hc He Hl Hok. destruct fuel as [|fuel]; [done|].
  erewrite gen_instance in Hok by (exact Hc || reflexivity).
  unfold ArrayExpression_gen in Hok.
  apply bind_ok_inv in Hok as (size & σ0 & Hsize & Hok).
  apply get_Ok_inv in Hsize as [-> _].
  apply bind_ok_inv in Hok as (s & σ1 & Hgen & Hok).
  apply gen_extends in Hgen as (Hheap & _).
  apply bind_ok_inv in Hok as (s' & σ2 & Hstr & Hok).
  apply str_Ok_inv in Hstr as [-> _].
  apply bind_ok_inv in Hok as (es & σ2 & Hes & Hok).
  apply get_Ok_inv in Hes as [-> Hes].
  assert (es = VRef l) as ->.
  { unfold prop in He, Hes. rewrite (get_heap _ _ σ1 σ Hheap) in Hes. congruence. }
  apply bind_ok_inv in Hok as (g & σ2 & Hgen & _).
  apply (gen_array_not_ok fuel l elems σ1); [by rewrite Hheap|].
  unfold is_ok. by rewrite Hgen.
Qed.

Lemma ArrayExpression_gen_never_returns_witness :
  instance_of (store array_decl) (VRef 6) = Some ArrayExpression ∧
  ¬ is_ok (@gen plain_host 9 (VRef 6) (store array_decl)).
Proof.
  split; [reflexivity|].
  by apply (@ArrayExpression_gen_never_returns plain_host 9 (VRef 6) 5 [VRef 4]
              (store array_decl)).
Defined.

Lemma javaScriptId_instance `{Host} v c σ :
  instance_of σ v = Some c →
  ∃ o σ', javaScriptId v σ = (Ok o, σ') ∧ heap σ' = heap σ.
Proof.
  intros Hc.
  assert (∃ i, prop σ v "id" = Some i) as [i Hi].
  { apply instance_of_lookup in Hc as (l & props & -> & Hl).
    unfold prop, get, obj_at. rewrite Hl. simpl. eauto. }
  destruct (map σ !! v) as [n|] eqn:Hn.
  - rewrite (javaScriptId_cached _ _ _ Hn), Hi. eauto.
  - rewrite (javaScriptId_fresh _ _ Hn), Hi. eauto.
Qed.

(** X20: generation from a method that has no [params], the property
    that [Method.prototype.gen] reads where the analyzer reads
    [parameters], raises a TypeError. *)
Theorem Method_gen_reads_params `{Host} (fuel : nat) (this : val) (σ : state) :
  instance_of σ this = Some Method →
  prop σ this "params" = Some VUndefined →
  (gen (S fuel) this σ).1 = Throw (TypeError "Cannot read property 'map' of undefined").
Proof.
  intros Hc Hp.
  erewrite gen_instance by (exact Hc || reflexivity).
  unfold Method_gen.
  destruct (javaScriptId_instance this Method σ Hc) as (o & σ1 & Hid & Hheap).
  rewrite (bind_Ok _ _ _ _ _ Hid).
  assert (get this "params" σ1 = (Ok VUndefined, σ1)) as Hget.
  { apply get_prop. unfold prop in *. by rewrite (get_heap _ _ σ1 σ Hheap). }
  by rewrite (bind_Ok _ _ _ _ _ Hget).
Qed.

Lemma Method_gen_reads_params_witness :
  (@gen plain_host 1 (VRef 1)
     (store [OArray [];
             ONode Method {[ "id" := VStr "m"; "parameters" := VRef 0;
                             "body" := VRef 0 ]}])).1
    = Throw (TypeError "Cannot read property 'map' of undefined").
Proof.
  by apply (@Method_gen_reads_params plain_host 0 (VRef 1)).
Defined.

Lemma getType_StringType k :
  getType (VStr k) = VBuiltin StringType ↔ k = "array_of_chars".
Proof.
  split; [|by intros ->].
  unfold getType, strict_eq. repeat case_bool_decide; try done; congruence.
Qed.

(** X21: a literal whose value is the string [s] is first analysed, then
    generated: the text is [s] between double quotes when its kind is
    [array_of_chars], and [s] itself for any other kind; nothing in [s]
    is escaped. *)
Theorem Literal_analysis_then_generation `{Host} (fuel fuel' : nat)
    (this context : val) (σ : state) (k s : string) :
  instance_of σ this = Some Literal →
  prop σ this "type" = Some (VStr k) →
  prop σ this "value" = Some (VStr s) →
  ∃ σ1, analyze (S fuel) this context σ = (Ok (), σ1) ∧
        gen (S fuel') this σ1 =
          (Ok (VStr (if bool_decide (k = "array_of_chars")
                     then dquote +:+ s +:+ dquote else s)), σ1).
Proof.
  intros Hc Hk Hs.
  destruct (analyze_Literal fuel this context σ (VStr k) Hc Hk) as (σ1 & Hrun & Ht).
  exists σ1. split; [done|].
  pose proof (analyze_frames _ _ _ _ _ _ Hrun) as Hann.
  pose proof (annotates_instance_of _ _ _ _ Hann Hc) as Hc1.
  assert (prop σ1 this "value" = Some (VStr s)) as Hs1.
  { by rewrite (prop_annotates σ σ1 this Literal "value" Hann Hc) by not_written. }
  erewrite gen_instance by (exact Hc1 || reflexivity).
  unfold Literal_gen.
  rewrite (bind_Ok _ _ _ _ _ (get_prop _ _ _ _ Ht)).
  unfold strict_eq. case_bool_decide as Hstr.
  - apply getType_StringType in Hstr as ->.
    rewrite (bind_Ok _ _ _ _ _ (get_prop _ _ _ _ Hs1)).
    rewrite (bind_Ok _ _ _ _ _ (str_Ok _ σ1)).
    by rewrite ToString_VStr.
  - rewrite bool_decide_eq_false_2; [by apply get_prop|].
    intros ->. by apply Hstr.
Qed.

Lemma Literal_analysis_then_generation_witness :
  ∃ σ1, @analyze plain_host 1 (VRef 0) VUndefined (store [literal "array_of_chars" "hi"])
        = (Ok (), σ1) ∧
        @gen plain_host 1 (VRef 0) σ1 = (Ok (VStr (dquote +:+ "hi" +:+ dquote)), σ1).
Proof.
  by apply (@Literal_analysis_then_generation plain_host 0 0 (VRef 0) VUndefined
              (store [literal "array_of_chars" "hi"]) "array_of_chars" "hi").
Defined.



(** ** Literals and [throw] *)

Lemma getType_idempotent v : getType (getType v) = getType v.
Proof.
  unfold getType, strict_eq. repeat case_bool_decide; try done; congruence.
Qed.

(** X23: the analysis of a literal always completes, and analysing it a
    second time leaves the type that the first analysis gave it. *)
Theorem Literal_reanalysis `{Host} (fuel : nat) (this context t : val) (σ : state) :
  instance_of σ this = Some Literal →
  prop σ this "type" = Some t →
  ∃ σ1 σ2, analyze (S fuel) this context σ = (Ok (), σ1) ∧
           analyze (S fuel) this context σ1 = (Ok (), σ2) ∧
           prop σ1 this "type" = Some (getType t) ∧
           prop σ2 this "type" = Some (getType t).
Proof.
  intros Hc Ht.
  destruct (analyze_Literal fuel this context σ t Hc Ht) as (σ1 & Hrun1 & Ht1).
  pose proof (annotates_instance_of _ _ _ _ (analyze_frames _ _ _ _ _ _ Hrun1) Hc) as Hc1.
  destruct (analyze_Literal fuel this context σ1 _ Hc1 Ht1) as (σ2 & Hrun2 & Ht2).
  exists σ1, σ2. by rewrite getType_idempotent in Ht2.
Qed.

Lemma Literal_reanalysis_witness :
  ∃ σ1 σ2,
    @analyze plain_host 1 (VRef 0) VUndefined (store [literal "whole_number" "7"])
      = (Ok (), σ1) ∧
    @analyze plain_host 1 (VRef 0) VUndefined σ1 = (Ok (), σ2) ∧
    prop σ1 (VRef 0) "type" = Some (getType (VStr "whole_number")) ∧
    prop σ2 (VRef 0) "type" = Some (getType (VStr "whole_number")).
Proof.
  by apply (@Literal_reanalysis plain_host 0 (VRef 0) VUndefined (VStr "whole_number")
              (store [literal "whole_number" "7"])).
Defined.

Lemma get_instance_Ok σ v c p :
  instance_of σ v = Some c → ∃ x, get v p σ = (Ok x, σ).
Proof.
  intros Hc. apply instance_of_lookup in Hc as (l & props & -> & Hl).
  unfold get, obj_at. rewrite Hl. simpl. eauto.
Qed.

(** X24: a [throw] statement whose error is an identifier never passes
    analysis, in any context: the error is analysed with no context, and
    the identifier's lookup raises a TypeError. *)
Theorem ThrowStatement_identifier_raises `{Host} (fuel : nat) (this context e : val)
    (σ : state) :
  instance_of σ this = Some ThrowStatement →
  prop σ this "error" = Some e →
  instance_of σ e = Some IdExp →
  (analyze (S (S fuel)) this context σ).1
    = Throw (TypeError "Cannot read property 'lookupValue' of undefined").
Proof.
  intros Hc He Hce.
  erewrite analyze_instance by (exact Hc || reflexivity).
  unfold ThrowStatement_analyze.
  rewrite (bind_Ok _ _ _ _ _ (get_prop _ _ _ _ He)).
  erewrite bind_Throw; [done|].
  erewrite analyze_instance by (exact Hce || reflexivity).
  unfold IdExp_analyze.
  destruct (get_instance_Ok σ e IdExp "reference" Hce) as [r Hr].
  rewrite (bind_Ok _ _ _ _ _ Hr).
  by erewrite bind_Throw.
Qed.

Lemma ThrowStatement_identifier_raises_witness :
  (@analyze plain_host 2 (VRef 2) (VRef 0)
     (store [Context.global;
             ONode IdExp {[ "reference" := VStr "msg" ]};
             ONode ThrowStatement {[ "error" := VRef 1 ]}])).1
    = Throw (TypeError "Cannot read property 'lookupValue' of undefined").
Proof.
  by apply (@ThrowStatement_identifier_raises plain_host 0 (VRef 2) (VRef 0) (VRef 1)).
Defined.

(** X25: a [throw] statement whose error is a literal passes analysis
    exactly when the kind of the literal is [array_of_chars]; for any
    other kind it raises "Not a string". *)
Theorem ThrowStatement_literal `{Host} (fuel : nat) (this context e : val)
    (σ : state) (k : string) :
  instance_of σ this = Some ThrowStatement →
  prop σ this "error" = Some e →
  instance_of σ e = Some Literal →
  prop σ e "type" = Some (VStr k) →
  (analyze (S (S fuel)) this context σ).1 =
    if bool_decide (k = "array_of_chars") then Ok ()
    else Throw (Error "Not a string").
Proof.
  intros Hc He Hce Hk.
  erewrite analyze_instance by (exact Hc || reflexivity).
  unfold ThrowStatement_analyze.
  rewrite (bind_Ok _ _ _ _ _ (get_prop _ _ _ _ He)).
  destruct (analyze_Literal fuel e VUndefined σ (VStr k) Hce Hk) as (σ1 & Hrun & Ht).
  rewrite (bind_Ok _ _ _ _ _ Hrun).
  pose proof (analyze_frames _ _ _ _ _ _ Hrun) as Hann.
  assert (prop σ1 this "error" = Some e) as He1.
  { by rewrite (prop_annotates σ σ1 this ThrowStatement "error" Hann Hc) by not_written. }
  rewrite (bind_Ok _ _ _ _ _ (get_prop _ _ _ _ He1)).
  change (check "isString" [e] σ1) with (isString e σ1).
  unfold isString. rewrite (bind_Ok _ _ _ _ _ (get_prop _ _ _ _ Ht)).
  unfold strict_eq, doCheck.
  case_bool_decide as Hstr.
  - apply getType_StringType in Hstr as ->. done.
  - rewrite bool_decide_eq_false_2; [done|]. intros ->. by apply Hstr.
Qed.

Lemma ThrowStatement_literal_witness :
  (@analyze plain_host 2 (VRef 1) VUndefined
     (store [literal "whole_number" "42";
             ONode ThrowStatement {[ "error" := VRef 0 ]}])).1
    = Throw (Error "Not a string").
Proof.
  by rewrite (@ThrowStatement_literal plain_host 0 (VRef 1) VUndefined (VRef 0)
                (store [literal "whole_number" "42";
                        ONode ThrowStatement {[ "error" := VRef 0 ]}]) "whole_number").
Defined.

(** ** More texts and failures of the generator *)



(** X27: generation from a variable declaration with no initializer,
    which the analyzer accepts, raises a TypeError. *)
Theorem VariableDeclaration_gen_needs_initializer `{Host} (fuel : nat) (this : val)
    (σ : state) :
  instance_of σ this = Some VariableDeclaration →
  prop σ this "initializer" = Some VUndefined →
  (gen (S (S fuel)) this σ).1 = Throw (TypeError "Cannot read property 'gen' of undefined").
Proof.
  intros Hc Hi.
  erewrite gen_instance by (exact Hc || reflexivity).
  unfold VariableDeclaration_gen.
  destruct (javaScriptId_instance this VariableDeclaration σ Hc) as (o & σ1 & Hid & Hheap).
  rewrite (bind_Ok _ _ _ _ _ Hid), (bind_Ok _ _ _ _ _ (str_Ok _ σ1)).
  assert (get this "initializer" σ1 = (Ok VUndefined, σ1)) as Hget.
  { apply get_prop. unfold prop in *. by rewrite (get_heap _ _ σ1 σ Hheap). }
  by rewrite (bind_Ok _ _ _ _ _ Hget).
Qed.

Lemma VariableDeclaration_gen_needs_initializer_witness :
  (@gen plain_host 2 (VRef 1) (store var_decl)).1
    = Throw (TypeError "Cannot read property 'gen' of undefined").
Proof.
  by apply (@VariableDeclaration_gen_needs_initializer plain_host 0 (VRef 1)).
Defined.

(** X28: generation from a function with no [parameters], which the
    analyzer accepts by its guard [if (this.parameters)], raises a
    TypeError. *)
Theorem Func_gen_needs_parameters `{Host} (fuel : nat) (this : val) (σ : state) :
  instance_of σ this = Some Func →
  prop σ this "parameters" = Some VUndefined →
  (gen (S fuel) this σ).1 = Throw (TypeError "Cannot read property 'map' of undefined").
Proof.
  intros Hc Hp.
  erewrite gen_instance by (exact Hc || reflexivity).
  unfold Func_gen.
  destruct (javaScriptId_instance this Func σ Hc) as (o & σ1 & Hid & Hheap).
  rewrite (bind_Ok _ _ _ _ _ Hid).
  assert (get this "parameters" σ1 = (Ok VUndefined, σ1)) as Hget.
  { apply get_prop. unfold prop in *. by rewrite (get_heap _ _ σ1 σ Hheap). }
  by rewrite (bind_Ok _ _ _ _ _ Hget).
Qed.

Lemma Func_gen_needs_parameters_witness :
  (@gen plain_host 1 (VRef 0) (store two_f)).1
    = Throw (TypeError "Cannot read property 'map' of undefined").
Proof.
  by apply (@Func_gen_needs_parameters plain_host 0 (VRef 0)).
Defined.
